(** * GradCAM (code_models/gradcam.py): a shallow embedding and its properties

    The development follows the three methods of the class [GradCAM]:
    [__init__] (score linearisation and target-layer selection),
    [compute_heatmap] (guided gradients, channel weights, class activation
    map, resize, min-max normalisation) and [overlay_heatmap].

    Conventions.
    - float32/float64 values are idealised as exact rationals ([Qc]):
      rounding is outside the model, and so are NaN and infinities, except
      in the division of the normalisation step, whose divisor can be zero
      ([np_float]).
    - A numpy array or a TensorFlow tensor is a shape together with its
      row-major buffer ([ndarray]).
    - Python exceptions are values of [exn]; a computation that may raise
      returns a [Result].
    - Keras variables live in a store ([gmap loc (ndarray Qc)]); layers refer
      to them by location, so sharing and copying are visible.
    - Services of TensorFlow, Keras and OpenCV that the source only calls
      (non-linear activations, reverse-mode differentiation, interpolation,
      colour palettes, weight initialisers) are the fields of the class
      [Backend]. *)

From Stdlib Require Import QArith Qcanon Qround.
From stdpp Require Import base numbers list strings gmap.

Set Default Proof Using "Type".

(** ** Exceptions and results *)

Inductive exn : Type :=
| KeyError (key : string)
| IndexError
| TypeError
| ValueError (msg : string)
| InvalidArgumentError
| cv2_error.

Inductive Result (A : Type) : Type :=
| OK (a : A)
| Raise (e : exn).
Arguments OK {A} a.
Arguments Raise {A} e.

#[global] Instance Result_ret : MRet Result := λ A a, OK a.
#[global] Instance Result_bind : MBind Result := λ A B f m,
  match m with OK a => f a | Raise e => Raise e end.

Definition is_OK {A} (r : Result A) : Prop := ∃ a, r = OK a.

(** ** Arrays *)

Record ndarray (A : Type) : Type := NDArray { shape : list nat; data : list A }.
Arguments NDArray {A} shape data.
Arguments shape {A} _.
Arguments data {A} _.

Definition size_of (s : list nat) : nat := foldr Nat.mul 1 s.

(** An array is well formed when its buffer has one cell per index. *)
Definition wf_array {A} (t : ndarray A) : Prop :=
  length (data t) = size_of (shape t).

(** The first [n] consecutive rows of [c] cells of a buffer. *)
Definition rows_of {A} (n c : nat) (l : list A) : list (list A) :=
  (λ p, take c (drop (p * c) l)) <$> seq 0 n.

(** A buffer cut into all its rows of [c] cells. *)
Definition chunks {A} (c : nat) (l : list A) : list (list A) :=
  rows_of (length l / c) c l.

Definition Qc_of_nat (n : nat) : Qc := Qc_of_Z (Z.of_nat n).

Definition sum_list_Qc (l : list Qc) : Qc := foldr Qcplus 0%Qc l.

(** [Σ_{i<n} f i], the index form used to state the reductions. *)
Fixpoint sum_below (n : nat) (f : nat → Qc) : Qc :=
  match n with
  | O => 0%Qc
  | S m => (sum_below m f + f m)%Qc
  end.

(** Row-major read of a rank-3 array of shape [[h; w; c]]. *)
Definition getitem3 (t : ndarray Qc) (i j k : nat) : Qc :=
  match shape t with
  | [_; w; c] => nth ((i * w + j) * c + k) (data t) 0%Qc
  | _ => 0%Qc
  end.

(** ** TensorFlow operations used by [compute_heatmap] *)

(** [t > 0] *)
Definition tf_greater0 (t : ndarray Qc) : ndarray bool :=
  NDArray (shape t) ((λ x, bool_decide (0 < x)%Qc) <$> data t).

(** [tf.cast(b, "float32")] on a boolean tensor *)
Definition tf_cast_float (b : ndarray bool) : ndarray Qc :=
  NDArray (shape b) ((λ x : bool, if x then 1%Qc else 0%Qc) <$> data b).

(** [a * b] on tensors of one shape *)
Definition tf_mul (a b : ndarray Qc) : ndarray Qc :=
  NDArray (shape a) (zip_with Qcmult (data a) (data b)).

(** [tf.multiply(v, t)] with the vector [v] broadcast along the last axis *)
Definition tf_multiply_bcast (v t : ndarray Qc) : ndarray Qc :=
  NDArray (shape t)
          (mjoin (zip_with Qcmult (data v) <$> chunks (length (data v)) (data t))).

(** [t[0]] *)
Definition getitem0 {A} (t : ndarray A) : Result (ndarray A) :=
  match shape t with
  | S _ :: rest => OK (NDArray rest (take (size_of rest) (data t)))
  | _ => Raise InvalidArgumentError
  end.

Definition vec_add (u v : list Qc) : list Qc := zip_with Qcplus u v.

(** [tf.reduce_mean(t, axis=(0, 1))] *)
Definition tf_reduce_mean_01 (t : ndarray Qc) : Result (ndarray Qc) :=
  match shape t with
  | h :: w :: rest =>
      let c := size_of rest in
      let total := foldr vec_add (replicate c 0%Qc) (rows_of (h * w) c (data t)) in
      OK (NDArray rest ((λ s, s / Qc_of_nat (h * w))%Qc <$> total))
  | _ => Raise InvalidArgumentError
  end.

(** [tf.reduce_sum(t, axis=-1)] *)
Definition tf_reduce_sum_last (t : ndarray Qc) : Result (ndarray Qc) :=
  match reverse (shape t) with
  | c :: tini =>
      OK (NDArray (reverse tini)
                  (sum_list_Qc <$> rows_of (size_of tini) c (data t)))
  | [] => Raise InvalidArgumentError
  end.

(** Lines 72-74: the guided gradients. *)
Definition guided_grads (convOutputs grads : ndarray Qc) : ndarray Qc :=
  let castConvOutputs := tf_cast_float (tf_greater0 convOutputs) in
  let castGrads := tf_cast_float (tf_greater0 grads) in
  tf_mul (tf_mul castConvOutputs castGrads) grads.

(** Lines 79-86: drop the batch axis, average the guided gradients over the
    two spatial axes, and weigh the channels of the activations. *)
Definition class_activation_map (convOutputs guidedGrads : ndarray Qc)
  : Result (ndarray Qc * ndarray Qc) :=
  convOutputs ← getitem0 convOutputs;
  guidedGrads ← getitem0 guidedGrads;
  weights ← tf_reduce_mean_01 guidedGrads;
  cam ← tf_reduce_sum_last (tf_multiply_bcast weights convOutputs);
  mret (weights, cam).

(** ** numpy and OpenCV operations used by [compute_heatmap] *)

Definition Qc_min (x y : Qc) : Qc := if decide (x ≤ y)%Qc then x else y.
Definition Qc_max (x y : Qc) : Qc := if decide (x ≤ y)%Qc then y else x.

(** [np.min(a)] and [a.max()]: an empty array has no minimum. *)
Definition np_min (a : ndarray Qc) : Result Qc :=
  match data a with
  | [] => Raise (ValueError "zero-size array to reduction operation minimum which has no identity")
  | x :: rest => OK (foldr Qc_min x rest)
  end.

Definition np_max (a : ndarray Qc) : Result Qc :=
  match data a with
  | [] => Raise (ValueError "zero-size array to reduction operation maximum which has no identity")
  | x :: rest => OK (foldr Qc_max x rest)
  end.

(** The result of a numpy division: dividing by zero raises nothing and
    gives an infinity, or NaN for [0 / 0]. *)
Inductive np_float : Type :=
| Finite (q : Qc)
| Inf (negative : bool)
| NaN.

(** [x / d] *)
Definition np_divide (x d : Qc) : np_float :=
  if decide (d = 0%Qc) then
    if decide (x = 0%Qc) then NaN else Inf (bool_decide (x < 0)%Qc)
  else Finite (x / d)%Qc.

(** [x * k] for a finite [k] *)
Definition np_multiply (x : np_float) (k : Qc) : np_float :=
  match x with
  | Finite q => Finite (q * k)%Qc
  | Inf negative =>
      if decide (k = 0%Qc) then NaN else Inf (xorb negative (bool_decide (k < 0)%Qc))
  | NaN => NaN
  end.

(** Conversion of a float to an integer: the fraction is dropped. *)
Definition Qc_trunc (q : Qc) : Z :=
  if decide (0 ≤ q)%Qc then Qfloor q else Qceiling q.

(** [a.astype("uint8")]: eight bits are kept of a finite value; the
    conversion of an infinity or of NaN, which C leaves undefined, is taken
    to give 0. *)
Definition astype_uint8 (a : ndarray np_float) : ndarray Z :=
  NDArray (shape a)
          ((λ x, match x with
                 | Finite q => (Qc_trunc q mod 256)%Z
                 | _ => 0%Z
                 end) <$> data a).

Definition is_uint8 (z : Z) : Prop := (0 ≤ z ≤ 255)%Z.

(** Line 98: [(heatmap.max() - heatmap.min()) + eps] *)
Definition heatmap_denom (heatmap : ndarray Qc) (eps : Qc) : Result Qc :=
  hi ← np_max heatmap;
  lo ← np_min heatmap;
  mret (hi - lo + eps)%Qc.

(** Lines 97-99: [numer / denom] *)
Definition heatmap_ratio (heatmap : ndarray Qc) (eps : Qc) : Result (ndarray np_float) :=
  lo ← np_min heatmap;
  let numer := NDArray (shape heatmap) ((λ x, x - lo)%Qc <$> data heatmap) in
  denom ← heatmap_denom heatmap eps;
  mret (NDArray (shape numer) ((λ x, np_divide x denom) <$> data numer)).

(** Lines 97-100: min-max normalisation to [[0, 255]]. *)
Definition normalize_heatmap (heatmap : ndarray Qc) (eps : Qc) : Result (ndarray Z) :=
  heatmap ← heatmap_ratio heatmap eps;
  mret (astype_uint8
          (NDArray (shape heatmap) ((λ x, np_multiply x (Qc_of_Z 255)) <$> data heatmap))).

(** [t[:, idx]] on a tensor: a negative index counts from the end, and an
    index outside the axis is refused. *)
Definition getitem_col (t : ndarray Qc) (idx : Z) : Result (ndarray Qc) :=
  match shape t with
  | b :: n :: rest =>
      let j := if (idx <? 0)%Z then (idx + Z.of_nat n)%Z else idx in
      if ((j <? 0) || (Z.of_nat n <=? j))%Z then Raise InvalidArgumentError
      else
        let r := size_of rest in
        OK (NDArray (b :: rest)
                    (mjoin ((λ row, take r (drop (Z.to_nat j * r) row))
                              <$> rows_of b (n * r) (data t))))
  | _ => Raise (ValueError "Index out of range")
  end.

(** ** Keras: configurations, layers, models, variables *)

(** Values found in the dictionary returned by [get_config()]. *)
Inductive cfg_value : Type :=
| CNone
| CBool (b : bool)
| CInt (n : Z)
| CStr (s : string)
| CCallable (qualname : string)
| CNested (repr : string).

#[global] Instance cfg_value_eq_dec : EqDecision cfg_value.
Proof. solve_decision. Defined.

Abbreviation Config := (gmap string cfg_value).

(** Identity of a Keras variable. *)
Abbreviation loc := nat (only parsing).
Abbreviation Store := (gmap loc (ndarray Qc)).

(** A layer is either a [Dense] layer, whose forward function is fixed by
    its configuration and weights, or a layer of another class, whose
    forward function is carried as it is. *)
Inductive layer_kind : Type :=
| Dense
| OtherLayer (call : list (ndarray Qc) → ndarray Qc → ndarray Qc).

Record Layer : Type := {
  name : string;
  kind : layer_kind;
  get_config : Config;
  output_shape : list (option Z);
  weights : list loc;
}.

(** A classifier: its layers in definition order, each fed by the one
    before it; [layers m] is [model.layers]. *)
Record Model : Type := { layers : list Layer }.

Record GradCAM : Type := {
  self_model : Model;
  self_target_layer_name : string;
}.

(** Python's [l[i]] with negative indices counted from the end. *)
Definition py_index {A} (l : list A) (i : Z) : Result A :=
  let n := Z.of_nat (length l) in
  let j := if (i <? 0)%Z then (i + n)%Z else i in
  if ((j <? 0) || (n <=? j))%Z then Raise IndexError
  else match l !! Z.to_nat j with
       | Some x => OK x
       | None => Raise IndexError
       end.

(** [d[key]] *)
Definition dict_getitem (d : Config) (key : string) : Result cfg_value :=
  match d !! key with
  | Some v => OK v
  | None => Raise (KeyError key)
  end.

(** [v.numpy()] for the variables of a layer *)
Definition read_weights (st : Store) (l : Layer) : list (ndarray Qc) :=
  (λ v, default (NDArray [] []) (st !! v)) <$> weights l.

(** Computations that read, allocate or assign variables. *)
Definition M (A : Type) : Type := Store → Result (A * Store).

Definition ret {A} (a : A) : M A := λ st, OK (a, st).
Definition bind {A B} (m : M A) (f : A → M B) : M B :=
  λ st, match m st with
        | OK (a, st') => f a st'
        | Raise e => Raise e
        end.
Definition lift {A} (r : Result A) : M A :=
  λ st, match r with OK a => OK (a, st) | Raise e => Raise e end.
Definition get_store : M Store := λ st, OK (st, st).

Notation "'let!' x ':=' m 'in' k" := (bind m (λ x, k))
  (at level 10, x name, m at level 100, k at level 200).
Notation "'let!' ' pat ':=' m 'in' k" := (bind m (λ x, match x with pat => k end))
  (at level 10, pat pattern, m at level 100, k at level 200).
Notation "'do!' m 'in' k" := (bind m (λ _, k))
  (at level 10, m at level 100, k at level 200).

(** A new variable holding [a]. *)
Definition new_variable (a : ndarray Qc) : M loc :=
  λ st, let v := fresh (dom st) in OK (v, <[v := a]> st).

(** [variable.assign(a)] *)
Definition assign (v : loc) (a : ndarray Qc) : M unit :=
  λ st, OK (tt, <[v := a]> st).

Fixpoint assign_all (vs : list loc) (ws : list (ndarray Qc)) : M unit :=
  match vs, ws with
  | v :: vs', w :: ws' => do! assign v w in assign_all vs' ws'
  | _, _ => ret tt
  end.

(** [layer.set_weights(ws)]: the arrays must match the layer's variables
    in number and in shape. *)
Definition set_weights (l : Layer) (ws : list (ndarray Qc)) : M unit :=
  let! st := get_store in
  if bool_decide (length ws = length (weights l)) then
    if bool_decide (shape <$> ws = shape <$> read_weights st l) then
      assign_all (weights l) ws
    else lift (Raise (ValueError "Layer weight shape not compatible with provided weight shape"))
  else lift (Raise (ValueError "Layer expects a different number of weights")).

(** The keyword arguments [tf.keras.layers.Dense] accepts: its own and
    those of the base class [Layer]. *)
Definition dense_kwargs : list string :=
  ["units"; "activation"; "use_bias"; "kernel_initializer"; "bias_initializer";
   "kernel_regularizer"; "bias_regularizer"; "activity_regularizer";
   "kernel_constraint"; "bias_constraint";
   "name"; "trainable"; "dtype"; "dynamic"; "input_dim"; "input_shape";
   "batch_input_shape"; "batch_size"; "weights"; "autocast"; "implementation"].

(** [tf.keras.activations.linear], as a configuration value *)
Definition linear : cfg_value := CCallable "linear".

Definition sum_vec (u v : list Qc) : Qc := sum_list_Qc (zip_with Qcmult u v).

(** [tf.matmul(x, kernel)] on the last axis of [x] *)
Definition matmul (x kernel : ndarray Qc) : ndarray Qc :=
  match reverse (shape x), shape kernel with
  | d :: tini, [rows; units] =>
      let column j := (λ row, nth j row 0%Qc) <$> rows_of rows units (data kernel) in
      NDArray (reverse (units :: tini))
              (mjoin ((λ row, (λ j, sum_vec row (column j)) <$> seq 0 units)
                        <$> rows_of (size_of tini) d (data x)))
  | _, _ => x
  end.

(** [tf.nn.bias_add(z, bias)] *)
Definition bias_add (z bias : ndarray Qc) : ndarray Qc :=
  NDArray (shape z)
          (mjoin (zip_with Qcplus (data bias) <$> chunks (length (data bias)) (data z))).

(** The affine part of a Dense layer: [x · kernel (+ bias)]. *)
Definition dense_affine (ws : list (ndarray Qc)) (x : ndarray Qc) : ndarray Qc :=
  match ws with
  | [kernel] => matmul x kernel
  | [kernel; bias] => bias_add (matmul x kernel) bias
  | _ => x
  end.

Definition replace_last {A} (l : list A) (x : A) : list A :=
  match reverse l with
  | _ :: tini => reverse (x :: tini)
  | [] => []
  end.

(** What the constructor of [Dense] keeps of its arguments. *)
Record DenseArgs : Type := {
  dense_name : string;
  dense_units : nat;
  dense_use_bias : bool;
  dense_config : Config;
}.

(** [tf.keras.layers.Dense] called with the entries of [config] as keyword
    arguments: an unknown keyword or a missing [units] is a [TypeError]. *)
Definition Dense_new (config : Config) : Result DenseArgs :=
  if bool_decide (dom config ⊆ list_to_set dense_kwargs) then
    match config !! "units" with
    | Some (CInt units) =>
        if (units <? 0)%Z then
          Raise (ValueError "Received an invalid value for units")
        else
          OK {| dense_name := match config !! "name" with
                              | Some (CStr s) => s
                              | _ => "dense"
                              end;
                dense_units := Z.to_nat units;
                dense_use_bias := match config !! "use_bias" with
                                  | Some (CBool false) => false
                                  | _ => true
                                  end;
                dense_config := config |}
    | _ => Raise TypeError
    end
  else Raise TypeError.

(** [tf.keras.models.Model(inputs=[model.input], outputs=[new_layer])]:
    the layers that lead to the new output, which must have distinct
    names. *)
Definition Model_new (model : Model) (new_layer : Layer) : Result Model :=
  let ls := removelast (layers model) ++ [new_layer] in
  if bool_decide (NoDup (name <$> ls)) then OK {| layers := ls |}
  else Raise (ValueError "All layer names should be unique").

(** [model.get_layer(name)], as the layers up to and including the one
    found, and those after it. *)
Fixpoint get_layer (ls : list Layer) (layer_name : string)
  : Result (list Layer * list Layer) :=
  match ls with
  | [] => Raise (ValueError "No such layer")
  | l :: rest =>
      if bool_decide (name l = layer_name) then OK ([l], rest)
      else '(upto, after) ← get_layer rest layer_name; mret (l :: upto, after)
  end.

(** Lines 38-45: the reverse scan for the target layer. Comparing an
    unknown dimension ([None]) with an integer is a [TypeError]. *)
Fixpoint find_target_layer (reversed_layers : list Layer) (target_layer_min_shape : Z)
  : Result string :=
  match reversed_layers with
  | [] => Raise (ValueError "Could not find 4D layer. Cannot apply GradCAM.")
  | layer :: rest =>
      if bool_decide (length (output_shape layer) = 4) then
        match output_shape layer !! 1 with
        | Some (Some d) =>
            if (target_layer_min_shape <=? d)%Z then OK (name layer)
            else find_target_layer rest target_layer_min_shape
        | _ => Raise TypeError
        end
      else find_target_layer rest target_layer_min_shape
  end.

(** ** OpenCV operations used by [overlay_heatmap] *)

(** [cvRound]: the nearest integer, a tie going to the even one. *)
Definition cvRound (q : Qc) : Z :=
  let f := Qfloor q in
  let r := (q - Qc_of_Z f)%Qc in
  if decide (r < Q2Qc (1 # 2))%Qc then f
  else if decide (Q2Qc (1 # 2) < r)%Qc then (f + 1)%Z
       else if Z.even f then f else (f + 1)%Z.

(** [saturate_cast<uchar>] *)
Definition saturate_uint8 (z : Z) : Z := Z.max 0 (Z.min 255 z).

(** [cv2.addWeighted(src1, alpha, src2, beta, gamma)] on 8-bit arrays of
    one shape. *)
Definition cv2_addWeighted (src1 : ndarray Z) (alpha : Qc) (src2 : ndarray Z)
           (beta gamma : Qc) : Result (ndarray Z) :=
  if bool_decide (shape src1 = shape src2) then
    OK (NDArray (shape src1)
                (zip_with (λ a b, saturate_uint8
                                    (cvRound (Qc_of_Z a * alpha + Qc_of_Z b * beta + gamma)%Qc))
                          (data src1) (data src2)))
  else Raise cv2_error.

Definition COLORMAP_VIRIDIS : Z := 16.

(** ** Services of TensorFlow, Keras and OpenCV

    What the source calls and does not define. *)
Class Backend : Type := {
  (** Activations other than [linear], by name ([softmax], [relu], ...). *)
  activation_fn : string → ndarray Qc → ndarray Qc;
  (** Initial value of a new variable of a given shape. *)
  initializer : list nat → list Qc;
  (** [tape.gradient(loss, convOutputs)]: the gradient, at the recorded
      activations, of the loss as a function of them. *)
  tape_gradient : (ndarray Qc → Result (ndarray Qc)) → ndarray Qc → ndarray Qc;
  (** The value [cv2.resize] gives the pixel at row [i], column [j] of a
      destination of width [w] and height [h]. *)
  interpolate : ndarray Qc → nat → nat → nat → nat → Qc;
  (** The three channels a colour map gives an 8-bit value. *)
  palette : Z → Z → Z * Z * Z;
}.

Section GradCAM_model.

Context {backend : Backend}.

(** [tf.keras.activations.get(identifier)] applied to a tensor;
    [tf.keras.activations.linear] returns its argument. *)
Definition apply_activation (identifier : option cfg_value) (z : ndarray Qc)
  : ndarray Qc :=
  match identifier with
  | Some (CStr s) | Some (CCallable s) =>
      if bool_decide (s = "linear") then z else activation_fn s z
  | _ => z
  end.

Definition dense_call (config : Config) (ws : list (ndarray Qc)) (x : ndarray Qc)
  : ndarray Qc :=
  apply_activation (config !! "activation") (dense_affine ws x).

Definition layer_call (st : Store) (l : Layer) (x : ndarray Qc) : ndarray Qc :=
  match kind l with
  | Dense => dense_call (get_config l) (read_weights st l) x
  | OtherLayer call => call (read_weights st l) x
  end.

Definition run_layers (st : Store) (ls : list Layer) (x : ndarray Qc) : ndarray Qc :=
  foldl (λ acc l, layer_call st l acc) x ls.

(** [model(x)] *)
Definition predict (st : Store) (m : Model) (x : ndarray Qc) : ndarray Qc :=
  run_layers st (layers m) x.

(** The pre-activation output of the final stage: what the model computes
    up to, and not including, the activation of its last layer. *)
Definition logits (st : Store) (m : Model) (x : ndarray Qc) : ndarray Qc :=
  match last (layers m) with
  | Some final =>
      dense_affine (read_weights st final) (run_layers st (removelast (layers m)) x)
  | None => x
  end.

(** A Dense layer applied to [prev.output]: the input must have rank 2 at
    least and a known last dimension; the kernel and the bias are new
    variables. *)
Definition Dense_call (args : DenseArgs) (prev : Layer) : M Layer :=
  match reverse (output_shape prev) with
  | Some d :: _ :: _ =>
      let units := dense_units args in
      let d := Z.to_nat d in
      let! kernel := new_variable (NDArray [d; units] (initializer [d; units])) in
      let! bias :=
        (if dense_use_bias args
         then let! b := new_variable (NDArray [units] (initializer [units])) in ret [b]
         else ret []) in
      ret {| name := dense_name args;
             kind := Dense;
             get_config := <["activation" := CStr "linear"]> (dense_config args);
             output_shape := replace_last (output_shape prev) (Some (Z.of_nat units));
             weights := kernel :: bias |}
  | _ =>
      lift (Raise (ValueError "The last dimension of the inputs to a Dense layer should be defined"))
  end.

(** Lines 17-31: the model the object keeps. *)
Definition linearize (model : Model) : M Model :=
  let! final := lift (py_index (layers model) (-1)) in
  let config := get_config final in
  let! activation := lift (dict_getitem config "activation") in
  if bool_decide (activation = CStr "softmax") then
    let! st := get_store in
    let weights := read_weights st final in
    let config := <["activation" := linear]> config in
    let config := <["name" := CStr "new_layer"]> config in
    let! args := lift (Dense_new config) in
    let! prev := lift (py_index (layers model) (-2)) in
    let! new_layer := Dense_call args prev in
    let! new_model := lift (Model_new model new_layer) in
    let! new_final := lift (py_index (layers new_model) (-1)) in
    do! set_weights new_final weights in
    ret new_model
  else ret model.

(** [GradCAM(model, target_layer_name, target_layer_min_shape)] *)
Definition __init__ (model : Model) (target_layer_name : option string)
           (target_layer_min_shape : Z) : M GradCAM :=
  let! self_model := linearize model in
  match target_layer_name with
  | None =>
      let! found := lift (find_target_layer (reverse (layers self_model))
                                            target_layer_min_shape) in
      ret {| self_model := self_model; self_target_layer_name := found |}
  | Some given =>
      ret {| self_model := self_model; self_target_layer_name := given |}
  end.

(** [cv2.resize(src, (w, h))] on a single-channel map: the result has [h]
    rows and [w] columns; an empty source or an empty size is refused. *)
Definition cv2_resize (src : ndarray Qc) (dsize : nat * nat) : Result (ndarray Qc) :=
  let '(w, h) := dsize in
  match shape src with
  | [rows; cols] =>
      if bool_decide (0 < rows ∧ 0 < cols ∧ 0 < w ∧ 0 < h) then
        OK (NDArray [h; w]
                    (mjoin ((λ i, (λ j, interpolate src w h i j) <$> seq 0 w) <$> seq 0 h)))
      else Raise cv2_error
  | _ => Raise cv2_error
  end.

(** [self.compute_heatmap(image, classIdx, eps)] *)
Definition compute_heatmap (self : GradCAM) (image : ndarray Qc) (classIdx : Z)
           (eps : Qc) : M (ndarray Z) :=
  let! st := get_store in
  let! '(upto, after) :=
    lift (get_layer (layers (self_model self)) (self_target_layer_name self)) in
  let inputs := image in
  let convOutputs := run_layers st upto inputs in
  let predictions := run_layers st after convOutputs in
  let! loss := lift (getitem_col predictions classIdx) in
  let grads :=
    tape_gradient (λ c, getitem_col (run_layers st after c) classIdx) convOutputs in
  let guidedGrads := guided_grads convOutputs grads in
  let! '(weights, cam) := lift (class_activation_map convOutputs guidedGrads) in
  let! w := lift (py_index (shape image) 2) in
  let! h := lift (py_index (shape image) 1) in
  let! heatmap := lift (cv2_resize cam (w, h)) in
  lift (normalize_heatmap heatmap eps).

(** [cv2.applyColorMap(src, colormap)] on a single-channel 8-bit map *)
Definition cv2_applyColorMap (src : ndarray Z) (colormap : Z) : Result (ndarray Z) :=
  match shape src with
  | [_; _] =>
      OK (NDArray (shape src ++ [3])
                  (mjoin ((λ v, let '(b, g, r) := palette colormap v in
                                [b mod 256; g mod 256; r mod 256]%Z) <$> data src)))
  | _ => Raise cv2_error
  end.

(** [self.overlay_heatmap(heatmap, image, alpha, colormap)] *)
Definition overlay_heatmap (self : GradCAM) (heatmap image : ndarray Z) (alpha : Qc)
           (colormap : Z) : M (ndarray Z * ndarray Z) :=
  let! heatmap := lift (cv2_applyColorMap heatmap colormap) in
  let! output := lift (cv2_addWeighted image alpha heatmap (1 - alpha)%Qc 0%Qc) in
  ret (heatmap, output).


(** The default arguments of the methods: [eps=1e-8], [alpha=0.5]. *)
Definition default_eps : Qc := Q2Qc (1 # 100000000).
Definition default_alpha : Qc := Q2Qc (1 # 2).

(** ** Predicates on layers used to state the selection of the target *)

(** The layer has a rank-4 output whose dimension 1 is known and at least
    [target_layer_min_shape]. *)
Definition qualifies (target_layer_min_shape : Z) (l : Layer) : bool :=
  bool_decide (length (output_shape l) = 4) &&
  match output_shape l !! 1 with
  | Some (Some d) => (target_layer_min_shape <=? d)%Z
  | _ => false
  end.

(** The layer has a rank-4 output whose dimension 1 is [None]. *)
Definition unknown_extent (l : Layer) : bool :=
  bool_decide (length (output_shape l) = 4) &&
  bool_decide (output_shape l !! 1 = Some None).

(** A layer the scan passes over: it does not qualify, and comparing its
    dimension 1 raises nothing. *)
Definition passed_over (target_layer_min_shape : Z) (l : Layer) : Prop :=
  qualifies target_layer_min_shape l = false ∧ unknown_extent l = false.

(** The shapes of the variables of a built Dense layer with this
    configuration on an input whose last dimension is [d]. *)
Definition dense_shapes (config : Config) (d units : nat) : list (list nat) :=
  take (match config !! "use_bias" with Some (CBool false) => 1 | _ => 2 end)
       [[d; units]; [units]].

(** The configuration handed to [Dense] on line 25. *)
Definition linear_config (final : Layer) : Config :=
  <["name" := CStr "new_layer"]> (<["activation" := linear]> (get_config final)).

(** ** A small classifier and a backend to run it

    An input of shape [[1; 4; 4; 1]], a stage that keeps the size, a stage
    that keeps every second row and column, a flattening stage, and a Dense
    stage over three classes. The output shape of an input layer is a list
    of one element. *)

(** Integers as rationals, to write the arrays of the examples. *)
Definition qc (z : Z) : Qc := Qc_of_Z z.

Definition subsample (x : ndarray Qc) : ndarray Qc :=
  NDArray [1; 2; 2; 1]
          ((λ p, nth (2 * (p / 2) * 4 + 2 * (p mod 2)) (data x) 0%Qc) <$> seq 0 4).

Definition input_layer : Layer :=
  {| name := "input_1"; kind := OtherLayer (λ _ x, x);
     get_config := {[ "name" := CStr "input_1" ]};
     output_shape := [None]; weights := [] |}.

Definition conv_layer : Layer :=
  {| name := "conv"; kind := OtherLayer (λ _ x, x);
     get_config := {[ "name" := CStr "conv"; "filters" := CInt 1 ]};
     output_shape := [None; Some 4; Some 4; Some 1]%Z; weights := [] |}.

Definition pool_layer : Layer :=
  {| name := "pool"; kind := OtherLayer (λ _ x, subsample x);
     get_config := {[ "name" := CStr "pool"; "strides" := CInt 2 ]};
     output_shape := [None; Some 2; Some 2; Some 1]%Z; weights := [] |}.

Definition flatten_layer : Layer :=
  {| name := "flatten";
     kind := OtherLayer (λ _ x, NDArray [1; length (data x)] (data x));
     get_config := {[ "name" := CStr "flatten" ]};
     output_shape := [None; Some 4]%Z; weights := [] |}.

Definition dense_config_of (n : string) (units : Z) (activation : string) : Config :=
  {[ "name" := CStr n; "trainable" := CBool true; "dtype" := CStr "float32";
     "units" := CInt units; "activation" := CStr activation;
     "use_bias" := CBool true ]}.

Definition softmax_layer : Layer :=
  {| name := "predictions"; kind := Dense;
     get_config := dense_config_of "predictions" 3 "softmax";
     output_shape := [None; Some 3]%Z; weights := [0; 1] |}.

(** A final stage [Activation('softmax')]: it is no Dense layer and its
    configuration has no [units]. *)
Definition activation_layer : Layer :=
  {| name := "activation"; kind := OtherLayer (λ _ x, x);
     get_config := {[ "name" := CStr "activation"; "trainable" := CBool true;
                      "dtype" := CStr "float32"; "activation" := CStr "softmax" ]};
     output_shape := [None; Some 3]%Z; weights := [] |}.

(** A convolution on images of any size, whose spatial extent is
    unknown, and the global pooling that follows it. *)
Definition any_size_conv : Layer :=
  {| name := "conv_any"; kind := OtherLayer (λ _ x, x);
     get_config := {[ "name" := CStr "conv_any"; "filters" := CInt 1 ]};
     output_shape := [None; None; None; Some 1]%Z; weights := [] |}.

Definition global_pool_layer : Layer :=
  {| name := "global_average_pooling2d";
     kind := OtherLayer
               (λ _ x, NDArray [1; 1]
                               [(sum_list_Qc (data x) / Qc_of_nat (length (data x)))%Qc]);
     get_config := {[ "name" := CStr "global_average_pooling2d" ]};
     output_shape := [None; Some 1]%Z; weights := [] |}.

Definition any_size_scores : Layer :=
  {| name := "scores"; kind := Dense;
     get_config := dense_config_of "scores" 3 "linear";
     output_shape := [None; Some 3]%Z; weights := [0; 1] |}.

Definition any_size_store : Store :=
  {[ 0 := NDArray [1; 3] (qc <$> [1; 0; 2]%Z);
     1 := NDArray [3] (qc <$> [0; 1; -1]%Z) ]}.

Definition linear_layer : Layer :=
  {| name := "scores"; kind := Dense;
     get_config := dense_config_of "scores" 3 "linear";
     output_shape := [None; Some 3]%Z; weights := [0; 1] |}.

Definition sample_model : Model :=
  {| layers := [input_layer; conv_layer; pool_layer; flatten_layer; softmax_layer] |}.

Definition sample_store : Store :=
  {[ 0 := NDArray [4; 3] (qc <$> [1; 0; 2; 0; 1; -1; 3; 0; 0; -2; 1; 1]%Z);
     1 := NDArray [3] (qc <$> [0; 1; -1]%Z) ]}.

Definition sample_image : ndarray Qc :=
  NDArray [1; 4; 4; 1] (qc <$> [1; 9; 2; 9; 9; 9; 9; 9; 3; 9; 4; 9; 9; 9; 9; 9]%Z).

(** Names the examples give to activations: [relu] is itself; [softmax],
    whose exponential is not rational, is stood for by the division by
    the sum. *)
Definition sample_activation (s : string) (x : ndarray Qc) : ndarray Qc :=
  if bool_decide (s = "relu") then NDArray (shape x) (Qc_max 0%Qc <$> data x)
  else NDArray (shape x) ((λ v, v / sum_list_Qc (data x))%Qc <$> data x).

(** The gradient of an affine loss, by unit differences. *)
Definition difference_gradient (loss : ndarray Qc → Result (ndarray Qc)) (x : ndarray Qc)
  : ndarray Qc :=
  let total y := match loss y with OK l => sum_list_Qc (data l) | Raise _ => 0%Qc end in
  NDArray (shape x)
          ((λ i, total (NDArray (shape x) (alter (λ v, v + 1)%Qc i (data x))) - total x)%Qc
             <$> seq 0 (length (data x))).

(** Nearest-neighbour sampling. *)
Definition nearest (src : ndarray Qc) (w h i j : nat) : Qc :=
  match shape src with
  | [rows; cols] => nth ((i * rows / h) * cols + j * cols / w) (data src) 0%Qc
  | _ => 0%Qc
  end.

Definition sample_backend : Backend :=
  {| activation_fn := sample_activation;
     initializer := λ s, replicate (size_of s) 0%Qc;
     tape_gradient := difference_gradient;
     interpolate := nearest;
     palette := λ _ v, (v, (255 - v)%Z, 0%Z) |}.

(** The final stage lines 22-27 build for [sample_model], the classifier
    kept, and the store after the construction. *)
Definition new_final_layer : Layer :=
  {| name := "new_layer"; kind := Dense;
     get_config := <["activation" := CStr "linear"]> (linear_config softmax_layer);
     output_shape := [None; Some 3]%Z; weights := [2; 3] |}.

Definition sample_kept : Model :=
  {| layers := [input_layer; conv_layer; pool_layer; flatten_layer; new_final_layer] |}.

Definition sample_store_after : Store :=
  <[3 := NDArray [3] (qc <$> [0; 1; -1]%Z)]>
    (<[2 := NDArray [4; 3] (qc <$> [1; 0; 2; 0; 1; -1; 3; 0; 0; -2; 1; 1]%Z)]> sample_store).

Definition sample_gradcam : GradCAM :=
  {| self_model := sample_kept; self_target_layer_name := "pool" |}.

(** Classifiers the construction refuses. *)
Definition activation_model : Model :=
  {| layers := [input_layer; conv_layer; pool_layer; flatten_layer; linear_layer;
                activation_layer] |}.

Definition any_size_model : Model :=
  {| layers := [input_layer; any_size_conv; global_pool_layer; any_size_scores] |}.

Definition headless_model : Model :=
  {| layers := [input_layer; conv_layer; pool_layer; flatten_layer] |}.

(** Activations and gradients of shape [[1; 2; 2; 2]]. *)
Definition sample_convOutputs : ndarray Qc :=
  NDArray [1; 2; 2; 2] (qc <$> [1; 2; -1; 3; 0; 5; 7; 8]%Z).

Definition sample_grads : ndarray Qc :=
  NDArray [1; 2; 2; 2] (qc <$> [1; -2; 4; 3; 5; 6; 0; 2]%Z).

Definition flat_map_5 : ndarray Qc := NDArray [2; 2] (qc <$> [5; 5; 5; 5]%Z).


Definition sample_picture : ndarray Z :=
  NDArray [2; 2; 3] [10; 20; 30; 40; 50; 60; 70; 80; 90; 100; 110; 255]%Z.

(** Further inputs of the examples: a map that rises from 1 to 5; gradients
    that are nowhere positive; activations and gradients of a batch of two;
    a classifier of a single softmax stage; a classifier with a stage
    already named ['new_layer']; a stage as high as [conv_layer] and one
    cell wide. *)
Definition ramp_map : ndarray Qc := NDArray [2; 2] (qc <$> [1; 2; 3; 5]%Z).

Definition falling_grads : ndarray Qc :=
  NDArray [1; 2; 2; 2] (qc <$> [-1; -2; 0; -3; -5; 0; -7; -2]%Z).

Definition batch_convOutputs : ndarray Qc :=
  NDArray [2; 2; 2; 2] (qc <$> [1; 2; -1; 3; 0; 5; 7; 8; 4; 4; 4; 4; -6; 6; -6; 6]%Z).

Definition batch_grads : ndarray Qc :=
  NDArray [2; 2; 2; 2] (qc <$> [1; -2; 4; 3; 5; 6; 0; 2; 9; 9; -9; 9; 1; 0; 1; 0]%Z).

Definition single_stage_model : Model := {| layers := [softmax_layer] |}.

Definition renamed_flatten_layer : Layer :=
  {| name := "new_layer";
     kind := OtherLayer (λ _ x, NDArray [1; length (data x)] (data x));
     get_config := {[ "name" := CStr "new_layer" ]};
     output_shape := [None; Some 4]%Z; weights := [] |}.

Definition clash_model : Model :=
  {| layers := [input_layer; conv_layer; pool_layer; renamed_flatten_layer;
                softmax_layer] |}.

Definition narrow_conv_layer : Layer :=
  {| name := "conv"; kind := OtherLayer (λ _ x, x);
     get_config := {[ "name" := CStr "conv"; "filters" := CInt 1 ]};
     output_shape := [None; Some 4; Some 1; Some 1]%Z; weights := [] |}.

(** * Properties *)

(** ** Rows of a buffer and finite sums *)

Lemma rows_of_length {A} n c (l : list A) : length (rows_of n c l) = n.
Proof. unfold rows_of. by rewrite length_fmap, length_seq. Qed.

Lemma rows_of_lookup {A} n c (l : list A) p :
  p < n → rows_of n c l !! p = Some (take c (drop (p * c) l)).
Proof.
  intros Hp. unfold rows_of. by rewrite list_lookup_fmap, lookup_seq_lt.
Qed.

Lemma rows_of_Forall_length {A} n c (l : list A) :
  n * c ≤ length l → Forall (λ r, length r = c) (rows_of n c l).
Proof.
  intros Hlen. apply Forall_lookup_2. intros p r Hr.
  assert (p < n) as Hp.
  { apply lookup_lt_Some in Hr. by rewrite rows_of_length in Hr. }
  rewrite rows_of_lookup in Hr by done. injection Hr as <-.
  rewrite length_take, length_drop. nia.
Qed.

Lemma rows_of_nth {A} n c (l : list A) p k d :
  p < n → k < c →
  nth k (nth p (rows_of n c l) []) d = nth (p * c + k) l d.
Proof.
  intros Hp Hk.
  rewrite (nth_lookup_Some _ _ _ _ (rows_of_lookup n c l p Hp)).
  by rewrite !nth_lookup, lookup_take_lt, lookup_drop.
Qed.

Lemma sum_below_ext n f g :
  (∀ p, p < n → f p = g p) → sum_below n f = sum_below n g.
Proof.
  induction n as [|n IH]; intros H; simpl; [done|].
  rewrite IH, H by (intros; auto with lia). done.
Qed.

Lemma sum_below_add a b f :
  sum_below (a + b) f = (sum_below a f + sum_below b (λ j, f (a + j)%nat))%Qc.
Proof.
  induction b as [|b IH]; simpl.
  - by rewrite Nat.add_0_r, Qcplus_0_r.
  - rewrite Nat.add_succ_r. simpl. rewrite IH. by rewrite Qcplus_assoc.
Qed.

Lemma sum_below_mul h w f :
  sum_below (h * w) f = sum_below h (λ i, sum_below w (λ j, f (i * w + j))).
Proof.
  induction h as [|h IH]; simpl; [done|].
  rewrite Nat.add_comm, sum_below_add, IH. done.
Qed.

Lemma sum_list_Qc_snoc l x : sum_list_Qc (l ++ [x]) = (sum_list_Qc l + x)%Qc.
Proof.
  induction l as [|y l IH]; simpl.
  - by rewrite Qcplus_0_l, Qcplus_0_r.
  - by rewrite IH, Qcplus_assoc.
Qed.

Lemma sum_list_sum_below (l : list Qc) :
  sum_list_Qc l = sum_below (length l) (λ p, nth p l 0%Qc).
Proof.
  induction l as [|x l IH] using rev_ind; [done|].
  rewrite sum_list_Qc_snoc, length_app, Nat.add_1_r. simpl.
  rewrite app_nth2 by lia. rewrite Nat.sub_diag. simpl. f_equal.
  rewrite IH. apply sum_below_ext. intros p Hp. by rewrite app_nth1.
Qed.

Lemma foldr_vec_add_lookup c rows k :
  Forall (λ r, length r = c) rows → k < c →
  foldr vec_add (replicate c 0%Qc) rows !! k
  = Some (sum_list_Qc ((λ r, nth k r 0%Qc) <$> rows)).
Proof.
  intros Hrows Hk. induction Hrows as [|r rows Hr _ IH]; simpl.
  - by rewrite lookup_replicate_2.
  - unfold vec_add at 1. rewrite lookup_zip_with, IH.
    destruct (lookup_lt_is_Some_2 r k) as [x Hx]; [lia|].
    rewrite Hx. simpl. by rewrite (nth_lookup_Some _ _ _ _ Hx).
Qed.

Lemma length_join_uniform {A} c (rows : list (list A)) :
  Forall (λ r, length r = c) rows → length (mjoin rows) = length rows * c.
Proof.
  induction 1 as [|r rows Hr _ IH]; simpl; [done|].
  rewrite length_app, IH, Hr. done.
Qed.

Lemma take_drop_join {A} c (rows : list (list A)) p r :
  Forall (λ r, length r = c) rows → rows !! p = Some r →
  take c (drop (p * c) (mjoin rows)) = r.
Proof.
  intros Hrows. revert p. induction Hrows as [|r0 rows Hr0 _ IH]; intros p Hp; [done|].
  change (mjoin (r0 :: rows)) with (r0 ++ mjoin rows).
  destruct p as [|p]; simpl in Hp.
  - injection Hp as ->. rewrite Nat.mul_0_l, drop_0. by rewrite take_app_length'.
  - replace (S p * c) with (c + p * c) by lia.
    rewrite drop_app_add' by done. by apply IH.
Qed.

Lemma rows_of_join {A} c (rows : list (list A)) :
  Forall (λ r, length r = c) rows → rows_of (length rows) c (mjoin rows) = rows.
Proof.
  intros Hrows. apply list_eq. intros p.
  destruct (decide (p < length rows)) as [Hp|Hp].
  - rewrite rows_of_lookup by lia.
    destruct (lookup_lt_is_Some_2 rows p Hp) as [r Hr].
    rewrite Hr. f_equal. by apply take_drop_join.
  - rewrite !lookup_ge_None_2; [done|lia|]. rewrite rows_of_length. lia.
Qed.

Lemma sum_vec_sum_below c (u v : list Qc) :
  length u = c → length v = c →
  sum_list_Qc (zip_with Qcmult u v)
  = sum_below c (λ k, (nth k u 0 * nth k v 0)%Qc).
Proof.
  intros Hu Hv. rewrite sum_list_sum_below, length_zip_with_l_eq, Hu by lia.
  apply sum_below_ext. intros k Hk. rewrite !nth_lookup, lookup_zip_with.
  destruct (lookup_lt_is_Some_2 u k) as [x ->]; [lia|].
  destruct (lookup_lt_is_Some_2 v k) as [y ->]; [lia|]. done.
Qed.

Lemma guided_grads_lookup convOutputs grads n a g :
  data convOutputs !! n = Some a → data grads !! n = Some g →
  data (guided_grads convOutputs grads) !! n
  = Some (if bool_decide (0 < a ∧ 0 < g)%Qc then g else 0%Qc).
Proof.
  intros Ha Hg. unfold guided_grads, tf_mul, tf_cast_float, tf_greater0. simpl.
  rewrite !lookup_zip_with, !list_lookup_fmap, Ha, Hg. simpl. f_equal.
  destruct (decide (0 < a)%Qc) as [Hpa|Hpa], (decide (0 < g)%Qc) as [Hpg|Hpg].
  - rewrite !bool_decide_eq_true_2 by auto. by rewrite !Qcmult_1_l.
  - rewrite (bool_decide_eq_false_2 (0 < g)%Qc), (bool_decide_eq_false_2 (_ ∧ _))
      by (auto || intros [_ ?]; auto).
    by rewrite Qcmult_0_r, Qcmult_0_l.
  - rewrite (bool_decide_eq_false_2 (0 < a)%Qc), (bool_decide_eq_false_2 (_ ∧ _))
      by (auto || intros [? _]; auto).
    by rewrite !Qcmult_0_l.
  - rewrite (bool_decide_eq_false_2 (0 < a)%Qc), (bool_decide_eq_false_2 (_ ∧ _))
      by (auto || intros [? _]; auto).
    by rewrite !Qcmult_0_l.
Qed.

Lemma length_foldr_vec_add c rows :
  Forall (λ r, length r = c) rows →
  length (foldr vec_add (replicate c 0%Qc) rows) = c.
Proof.
  induction 1 as [|r rows Hr _ IH]; simpl.
  - by rewrite length_replicate.
  - unfold vec_add at 1. rewrite length_zip_with_l_eq; lia.
Qed.

Lemma sum_rows_column n c (l : list Qc) k :
  k < c →
  sum_list_Qc ((λ r, nth k r 0%Qc) <$> rows_of n c l)
  = sum_below n (λ p, nth (p * c + k) l 0%Qc).
Proof.
  intros Hk. rewrite sum_list_sum_below, length_fmap, rows_of_length.
  apply sum_below_ext. intros p Hp.
  rewrite <-(rows_of_nth n c l p k 0%Qc Hp Hk).
  rewrite !(nth_lookup _ p), list_lookup_fmap.
  by rewrite (rows_of_lookup n c l p Hp).
Qed.

Lemma getitem3_nth t h w c i j k :
  shape t = [h; w; c] → getitem3 t i j k = nth ((i * w + j) * c + k) (data t) 0%Qc.
Proof. intros Hs. unfold getitem3. by rewrite Hs. Qed.

Lemma getitem0_spec {A} (t : ndarray A) b rest :
  shape t = S b :: rest →
  getitem0 t = OK (NDArray rest (take (size_of rest) (data t))).
Proof. intros Hs. unfold getitem0. by rewrite Hs. Qed.

Lemma tf_reduce_mean_01_spec t h w c :
  shape t = [h; w; c] →
  h * w * c ≤ length (data t) →
  ∃ ws, tf_reduce_mean_01 t = OK ws ∧ shape ws = [c] ∧ length (data ws) = c ∧
    ∀ k, k < c →
      data ws !! k
      = Some (sum_below h (λ i, sum_below w (λ j, getitem3 t i j k))
              / Qc_of_nat (h * w))%Qc.
Proof.
  intros Hs Hlen. unfold tf_reduce_mean_01. rewrite Hs.
  assert (size_of [c] = c) as -> by (simpl; lia).
  pose proof (rows_of_Forall_length (h * w) c (data t) Hlen) as Hrows.
  eexists. split; [done|]. cbn [shape data]. split; [done|]. split.
  - by rewrite length_fmap, length_foldr_vec_add.
  - intros k Hk. rewrite list_lookup_fmap, foldr_vec_add_lookup by done.
    cbn [fmap option_fmap option_map]. do 2 f_equal.
    rewrite sum_rows_column, sum_below_mul by done.
    apply sum_below_ext; intros i _. apply sum_below_ext; intros j _.
    by rewrite (getitem3_nth t h w c).
Qed.

Lemma cam_spec ws t h w c :
  shape t = [h; w; c] →
  length (data t) = h * w * c →
  length (data ws) = c →
  ∃ cam, tf_reduce_sum_last (tf_multiply_bcast ws t) = OK cam ∧ shape cam = [h; w] ∧
    ∀ i j, i < h → j < w →
      data cam !! (i * w + j)
      = Some (sum_below c (λ k, (nth k (data ws) 0 * getitem3 t i j k)%Qc)).
Proof.
  intros Hs Hlen Hws. unfold tf_reduce_sum_last, tf_multiply_bcast.
  cbn [shape data]. rewrite Hs. cbn [reverse rev_append].
  eexists. split; [done|]. split; [done|]. intros i j Hi Hj. cbn [data].
  assert (size_of [w; h] = h * w) as -> by (simpl; lia).
  assert (i * w + j < h * w) as Hp by nia.
  rewrite Hws. destruct (decide (c = 0)) as [->|Hc].
  - rewrite list_lookup_fmap, rows_of_lookup by done. done.
  - assert (chunks c (data t) = rows_of (h * w) c (data t)) as ->.
    { unfold chunks. rewrite Hlen, Nat.div_mul by done. done. }
    pose proof (rows_of_Forall_length (h * w) c (data t)) as Hrows.
    rewrite <-(rows_of_length (h * w) c (data t)) at 1.
    rewrite <-(length_fmap (zip_with Qcmult (data ws))).
    rewrite rows_of_join.
    2:{ apply Forall_fmap. eapply Forall_impl; [apply Hrows; lia|].
        intros r Hr. simpl in *. rewrite length_zip_with_l_eq; lia. }
    rewrite !list_lookup_fmap, rows_of_lookup by done.
    cbn [fmap option_fmap option_map]. f_equal.
    rewrite (sum_vec_sum_below c).
    + apply sum_below_ext. intros k Hk. f_equal.
      rewrite (getitem3_nth t h w c) by done.
      by rewrite !nth_lookup, lookup_take_lt, lookup_drop.
    + done.
    + rewrite length_take, length_drop. nia.
Qed.

(** C1: in [compute_heatmap], for activations and gradients of one shape
    [[batch; h; w; c]], the guided gradient at each element is the gradient
    where both the activation and the gradient are strictly positive and
    zero elsewhere; the weight of a channel is the mean of the guided
    gradients over the height and the width; and the class activation map
    at a location is the sum over the channels of the weight times the
    activation there. *)
Theorem guided_weights_cam_correct (convOutputs grads : ndarray Qc) (b h w c : nat) :
  shape convOutputs = [S b; h; w; c] →
  shape grads = shape convOutputs →
  wf_array convOutputs →
  wf_array grads →
  let guidedGrads := guided_grads convOutputs grads in
  (shape guidedGrads = shape grads ∧
   ∀ n a g, data convOutputs !! n = Some a → data grads !! n = Some g →
     data guidedGrads !! n = Some (if bool_decide (0 < a ∧ 0 < g)%Qc then g else 0%Qc)) ∧
  ∃ conv0 guided0 ws cam,
    getitem0 convOutputs = OK conv0 ∧
    getitem0 guidedGrads = OK guided0 ∧
    class_activation_map convOutputs guidedGrads = OK (ws, cam) ∧
    shape ws = [c] ∧
    (∀ k, k < c →
       data ws !! k
       = Some (sum_below h (λ i, sum_below w (λ j, getitem3 guided0 i j k))
               / Qc_of_nat (h * w))%Qc) ∧
    shape cam = [h; w] ∧
    (∀ i j, i < h → j < w →
       data cam !! (i * w + j)
       = Some (sum_below c (λ k, (nth k (data ws) 0 * getitem3 conv0 i j k)%Qc))).
Proof.
  intros Hshape Hgshape Hwf Hgwf guidedGrads.
  assert (shape guidedGrads = shape convOutputs) as Hgg by done.
  assert (length (data guidedGrads) = length (data convOutputs)) as Hglen.
  { unfold guidedGrads, guided_grads, tf_mul, tf_cast_float, tf_greater0. cbn [data shape].
    rewrite !length_zip_with, !length_fmap. unfold wf_array in *. 
    rewrite Hgwf, Hgshape, <-Hwf. lia. }
  assert (length (data convOutputs) = S b * (h * w * c)) as Hlen.
  { unfold wf_array in Hwf. rewrite Hwf, Hshape. simpl. lia. }
  split.
  { split; [congruence|]. intros n a g. apply guided_grads_lookup. }
  assert (size_of [h; w; c] = h * w * c) as Hsz by (simpl; lia).
  pose proof (getitem0_spec convOutputs b [h; w; c] Hshape) as Hc0.
  pose proof (getitem0_spec guidedGrads b [h; w; c] (eq_trans Hgg Hshape)) as Hg0.
  set (conv0 := NDArray [h; w; c] (take (size_of [h; w; c]) (data convOutputs))) in *.
  set (guided0 := NDArray [h; w; c] (take (size_of [h; w; c]) (data guidedGrads))) in *.
  destruct (tf_reduce_mean_01_spec guided0 h w c) as (ws & Hws & Hwshape & Hwlen & Hwk).
  { done. }
  { unfold guided0. cbn [data]. rewrite length_take, Hsz, Hglen, Hlen. lia. }
  destruct (cam_spec ws conv0 h w c) as (cam & Hcam & Hcshape & Hcij).
  { done. }
  { unfold conv0. cbn [data]. rewrite length_take, Hsz, Hlen. lia. }
  { done. }
  exists conv0, guided0, ws, cam. repeat split; try done.
  unfold class_activation_map. rewrite Hc0, Hg0. cbn [mbind Result_bind].
  rewrite Hws. cbn [mbind Result_bind]. rewrite Hcam. done.
Qed.


(** ** Computations on the store *)

Lemma bind_OK {A B} (m : M A) (f : A → M B) st b st' :
  bind m f st = OK (b, st') ↔ ∃ a st1, m st = OK (a, st1) ∧ f a st1 = OK (b, st').
Proof.
  unfold bind. split.
  - destruct (m st) as [[a st1]|e]; [eauto|done].
  - intros (a & st1 & -> & H). done.
Qed.

Lemma bind_Raise {A B} (m : M A) (f : A → M B) st e :
  m st = Raise e → bind m f st = Raise e.
Proof. unfold bind. by intros ->. Qed.

Lemma bind_step {A B} (m : M A) (f : A → M B) st a st1 :
  m st = OK (a, st1) → bind m f st = f a st1.
Proof. unfold bind. by intros ->. Qed.

Lemma lift_OK {A} (r : Result A) st a st' :
  lift r st = OK (a, st') ↔ r = OK a ∧ st' = st.
Proof.
  unfold lift. destruct r; split.
  - by intros [= <- <-].
  - by intros [[= <-] ->].
  - done.
  - by intros [? _].
Qed.

Lemma py_index_last {A} (l : list A) :
  py_index l (-1) = match last l with Some x => OK x | None => Raise IndexError end.
Proof.
  unfold py_index. rewrite last_lookup.
  destruct l as [|x l]; [done|].
  assert (((-1 <? 0) = true)%Z) as -> by done.
  assert ((-1 + Z.of_nat (length (x :: l)))%Z = Z.of_nat (length l)) as ->
    by (simpl; lia).
  rewrite Nat2Z.id.
  assert (((Z.of_nat (length l) <? 0) || (Z.of_nat (length (x :: l)) <=? Z.of_nat (length l)))%Z
          = false) as ->.
  { apply orb_false_intro; [apply Z.ltb_ge|apply Z.leb_gt]; simpl; lia. }
  simpl. by destruct ((x :: l) !! length l).
Qed.

Lemma py_index_final {A} (l : list A) x :
  last l = Some x → py_index l (-1) = OK x.
Proof. intros Hlast. by rewrite py_index_last, Hlast. Qed.

Lemma dict_getitem_Some (d : Config) key v :
  d !! key = Some v → dict_getitem d key = OK v.
Proof. unfold dict_getitem. by intros ->. Qed.

Lemma lift_run {A} (r : Result A) a st : r = OK a → lift r st = OK (a, st).
Proof. unfold lift. by intros ->. Qed.

Lemma get_store_run st : get_store st = OK (st, st).
Proof. done. Qed.

(** [run H] runs the first step of the computation in the goal, [H] giving
    its outcome; [run_lift H] does so for a step that leaves the store as
    it is, and [run_store] for the reading of the store. *)
Ltac run H := rewrite (bind_step _ _ _ _ _ H).
Ltac run_lift H := rewrite (bind_step _ _ _ _ _ (lift_run _ _ _ H)).
Ltac run_store := rewrite (bind_step _ _ _ _ _ (get_store_run _)).

(** C10: a classifier whose final stage has no ['activation'] entry in its
    configuration makes the construction fail with the lookup error of that
    key, whatever the other arguments and the other layers are: nothing is
    linearised, no layer is searched, and the model is not taken as a
    non-softmax one. *)
Theorem init_missing_activation (model : Model) (target_layer_name : option string)
        (target_layer_min_shape : Z) (st : Store) (final : Layer) :
  last (layers model) = Some final →
  get_config final !! "activation" = None →
  __init__ model target_layer_name target_layer_min_shape st
  = Raise (KeyError "activation").
Proof.
  intros Hlast Hcfg. unfold __init__. apply bind_Raise.
  unfold linearize. run_lift (py_index_final _ _ Hlast).
  apply bind_Raise. unfold lift, dict_getitem. by rewrite Hcfg.
Qed.


(** ** Variables: allocation and assignment *)

Lemma new_variable_spec a st v st' :
  new_variable a st = OK (v, st') → (v ∉ dom st) ∧ st' = <[v := a]> st.
Proof.
  unfold new_variable. intros [= <- <-]. split; [apply is_fresh|done].
Qed.

Lemma assign_all_spec vs ws st :
  ∃ st', assign_all vs ws st = OK (tt, st') ∧
    dom st ⊆ dom st' ∧
    (∀ v, v ∉ vs → st' !! v = st !! v) ∧
    (NoDup vs → length vs = length ws →
     (λ v, default (NDArray [] []) (st' !! v)) <$> vs = ws).
Proof.
  revert ws st. induction vs as [|v vs IH]; intros ws st.
  - exists st. repeat split; try done. intros _ Hlen. by destruct ws.
  - destruct ws as [|w ws].
    + exists st. repeat split; done.
    + destruct (IH ws (<[v := w]> st)) as (st' & Hrun & Hdom & Hframe & Hread).
      exists st'. split; [|split; [|split]].
      * simpl. unfold bind, assign. done.
      * etrans; [|exact Hdom]. rewrite dom_insert_L. apply union_subseteq_r.
      * intros u [Hne Hu]%not_elem_of_cons. rewrite Hframe by done.
        by apply lookup_insert_ne.
      * intros Hnd Hlen. apply NoDup_cons in Hnd as [Hv Hnd].
        cbn [fmap list_fmap]. rewrite Hframe, lookup_insert_eq by done.
        cbn [default]. f_equal. apply Hread; [done|]. simpl in Hlen. lia.
Qed.

Lemma Dense_call_spec args prev st new_layer st1 :
  Dense_call args prev st = OK (new_layer, st1) →
  name new_layer = dense_name args ∧
  kind new_layer = Dense ∧
  get_config new_layer = <["activation" := CStr "linear"]> (dense_config args) ∧
  output_shape new_layer
  = replace_last (output_shape prev) (Some (Z.of_nat (dense_units args))) ∧
  length (weights new_layer) = (if dense_use_bias args then 2 else 1) ∧
  NoDup (weights new_layer) ∧
  (∀ v, v ∈ weights new_layer → v ∉ dom st) ∧
  (∀ v, v ∈ dom st → st1 !! v = st !! v) ∧
  (∃ d, head (reverse (output_shape prev)) = Some (Some d) ∧
        shape <$> read_weights st1 new_layer
        = take (length (weights new_layer))
               [[Z.to_nat d; dense_units args]; [dense_units args]]).
Proof.
  unfold Dense_call.
  destruct (reverse (output_shape prev)) as [|[d|] [|d' tini]];
    try (intros H; apply lift_OK in H as [? _]; done).
  intros (kernel & st2 & Hk & H)%bind_OK.
  apply new_variable_spec in Hk as [Hkfresh ->].
  apply bind_OK in H as (bias & st3 & Hb & [= <- <-]).
  cbn [name kind get_config output_shape weights].
  destruct (dense_use_bias args).
  - apply bind_OK in Hb as (b & st4 & Hb & [= <- <-]).
    apply new_variable_spec in Hb as [Hbfresh ->].
    rewrite dom_insert_L in Hbfresh.
    apply not_elem_of_union in Hbfresh as [Hne%not_elem_of_singleton Hbfresh].
    repeat split; try done.
    + apply NoDup_cons. split; [|apply NoDup_singleton].
      by intros ->%list_elem_of_singleton.
    + intros v [->|[->|[]%elem_of_nil]%elem_of_cons]%elem_of_cons; done.
    + intros v Hv. rewrite !lookup_insert_ne; [done|by intros ->..].
    + exists d. split; [done|]. unfold read_weights.
      cbn [weights fmap list_fmap length take].
      rewrite lookup_insert_ne, !lookup_insert_eq by done. done.
  - injection Hb as <- <-.
    repeat split; try done.
    + apply NoDup_singleton.
    + by intros v ->%list_elem_of_singleton.
    + intros v Hv. rewrite lookup_insert_ne; [done|by intros ->].
    + exists d. split; [done|]. unfold read_weights.
      cbn [weights fmap list_fmap length take].
      rewrite lookup_insert_eq. done.
Qed.

Lemma set_weights_spec l ws st st' :
  set_weights l ws st = OK (tt, st') →
  length ws = length (weights l) ∧
  shape <$> ws = shape <$> read_weights st l ∧
  dom st ⊆ dom st' ∧
  (∀ v, v ∉ weights l → st' !! v = st !! v) ∧
  (NoDup (weights l) → read_weights st' l = ws).
Proof.
  unfold set_weights. intros (st0 & st1 & [= <- <-] & H)%bind_OK.
  case_bool_decide as Hlen; [|by apply lift_OK in H as [? _]].
  case_bool_decide as Hshape; [|by apply lift_OK in H as [? _]].
  destruct (assign_all_spec (weights l) ws st) as (st2 & Hrun & Hdom & Hframe & Hread).
  rewrite Hrun in H. injection H as <-.
  repeat split; try done. intros Hnd. by apply Hread.
Qed.

Lemma set_weights_total l ws st :
  length ws = length (weights l) →
  shape <$> ws = shape <$> read_weights st l →
  ∃ st', set_weights l ws st = OK (tt, st').
Proof.
  intros Hlen Hshape. unfold set_weights, bind, get_store.
  rewrite !bool_decide_eq_true_2 by done.
  destruct (assign_all_spec (weights l) ws st) as (st' & Hrun & _). eauto.
Qed.


(** ** The final stage and its replacement *)

Lemma linearize_other model st final activation :
  last (layers model) = Some final →
  get_config final !! "activation" = Some activation →
  activation ≠ CStr "softmax" →
  linearize model st = OK (model, st).
Proof.
  intros Hlast Hcfg Hact. unfold linearize.
  run_lift (py_index_final _ _ Hlast). run_lift (dict_getitem_Some _ _ _ Hcfg).
  by rewrite bool_decide_eq_false_2.
Qed.

Lemma linearize_softmax model st final :
  last (layers model) = Some final →
  get_config final !! "activation" = Some (CStr "softmax") →
  linearize model st =
  match Dense_new (linear_config final) with
  | Raise e => Raise e
  | OK args =>
      match py_index (layers model) (-2) with
      | Raise e => Raise e
      | OK prev =>
          match Dense_call args prev st with
          | Raise e => Raise e
          | OK (new_layer, st1) =>
              match Model_new model new_layer with
              | Raise e => Raise e
              | OK new_model =>
                  match set_weights new_layer (read_weights st final) st1 with
                  | Raise e => Raise e
                  | OK (_, st') => OK (new_model, st')
                  end
              end
          end
      end
  end.
Proof.
  intros Hlast Hcfg. unfold linearize.
  run_lift (py_index_final _ _ Hlast). run_lift (dict_getitem_Some _ _ _ Hcfg).
  rewrite bool_decide_eq_true_2 by done. run_store.
  fold (linear_config final).
  unfold bind at 1. unfold lift at 1.
  destruct (Dense_new (linear_config final)) as [args|e]; [|done].
  unfold bind at 1. unfold lift at 1.
  destruct (py_index (layers model) (-2)) as [prev|e]; [|done].
  unfold bind at 1.
  destruct (Dense_call args prev st) as [[new_layer st1]|e]; [|done].
  unfold bind at 1. unfold lift at 1.
  unfold Model_new. case_bool_decide as Hnd; [|done].
  unfold bind at 1. unfold lift at 1. cbn [layers].
  rewrite py_index_last, last_snoc.
  unfold bind at 1.
  destruct (set_weights new_layer (read_weights st final) st1) as [[[] st']|e]; done.
Qed.


Lemma linearize_inv model st m' st' :
  linearize model st = OK (m', st') →
  ∃ final activation,
    last (layers model) = Some final ∧
    get_config final !! "activation" = Some activation ∧
    ((activation ≠ CStr "softmax" ∧ m' = model ∧ st' = st) ∨
     (activation = CStr "softmax" ∧
      ∃ args prev new_layer st1,
        Dense_new (linear_config final) = OK args ∧
        py_index (layers model) (-2) = OK prev ∧
        Dense_call args prev st = OK (new_layer, st1) ∧
        m' = {| layers := removelast (layers model) ++ [new_layer] |} ∧
        NoDup (name <$> layers m') ∧
        set_weights new_layer (read_weights st final) st1 = OK (tt, st'))).
Proof.
  intros Hrun.
  destruct (last (layers model)) as [final|] eqn:Hlast.
  2:{ unfold linearize in Hrun. rewrite bind_Raise with (e := IndexError) in Hrun; [done|].
      unfold lift. by rewrite py_index_last, Hlast. }
  destruct (get_config final !! "activation") as [activation|] eqn:Hcfg.
  2:{ unfold linearize in Hrun.
      rewrite (bind_step _ _ _ _ _ (lift_run _ _ st (py_index_final _ _ Hlast))) in Hrun.
      rewrite bind_Raise with (e := KeyError "activation") in Hrun; [done|].
      unfold lift, dict_getitem. by rewrite Hcfg. }
  exists final, activation. split; [done|]. split; [done|].
  destruct (decide (activation = CStr "softmax")) as [->|Hact].
  - right. split; [done|].
    rewrite (linearize_softmax model st final Hlast Hcfg) in Hrun.
    destruct (Dense_new (linear_config final)) as [args|]; [|done].
    destruct (py_index (layers model) (-2)) as [prev|]; [|done].
    destruct (Dense_call args prev st) as [[new_layer st1]|] eqn:Hcall; [|done].
    unfold Model_new in Hrun. case_bool_decide as Hnd; [|done].
    destruct (set_weights new_layer (read_weights st final) st1) as [[[] st2]|] eqn:Hset;
      [|done].
    injection Hrun as <- <-. by exists args, prev, new_layer, st1.
  - left. rewrite (linearize_other model st final activation) in Hrun by done.
    by injection Hrun as <- <-.
Qed.

(** Construction leaves every variable that existed before it as it was. *)
Lemma linearize_frame model st m' st' :
  linearize model st = OK (m', st') → ∀ v, v ∈ dom st → st' !! v = st !! v.
Proof.
  intros (final & activation & _ & _ & [(_ & _ & ->)|(_ & Hsoft)])%linearize_inv v Hv;
    [done|].
  destruct Hsoft as (args & prev & new_layer & st1 & _ & _ & Hcall & _ & _ & Hset).
  apply Dense_call_spec in Hcall as (_ & _ & _ & _ & _ & _ & Hfresh & Hframe & _).
  apply set_weights_spec in Hset as (_ & _ & _ & Hframe' & _).
  rewrite Hframe' by (intros Hin; by apply Hfresh in Hin).
  by apply Hframe.
Qed.

Lemma init_inv model target_layer_name target_layer_min_shape st g st' :
  __init__ model target_layer_name target_layer_min_shape st = OK (g, st') →
  linearize model st = OK (self_model g, st') ∧
  match target_layer_name with
  | Some given => self_target_layer_name g = given
  | None =>
      find_target_layer (reverse (layers (self_model g))) target_layer_min_shape
      = OK (self_target_layer_name g)
  end.
Proof.
  unfold __init__. intros (m' & st1 & Hlin & H)%bind_OK.
  destruct target_layer_name as [given|].
  - injection H as <- <-. done.
  - apply bind_OK in H as (found & st2 & [Hfind ->]%lift_OK & [= <- <-]). done.
Qed.


Lemma Dense_call_total args prev st new_layer st1 st2 :
  Dense_call args prev st = OK (new_layer, st1) →
  ∃ new_layer2 st3, Dense_call args prev st2 = OK (new_layer2, st3).
Proof.
  unfold Dense_call.
  destruct (reverse (output_shape prev)) as [|[d|] [|d' tini]];
    try (intros H; apply lift_OK in H as [? _]; done).
  intros _. unfold bind, new_variable, ret. destruct (dense_use_bias args); eauto.
Qed.

(** ** The reverse scan *)

Lemma find_target_layer_cons l rest k :
  find_target_layer (l :: rest) k =
  if qualifies k l then OK (name l)
  else if unknown_extent l then Raise TypeError
       else find_target_layer rest k.
Proof.
  unfold qualifies, unknown_extent. cbn [find_target_layer].
  case_bool_decide as Hlen; [|done]. cbn [andb].
  destruct (lookup_lt_is_Some_2 (output_shape l) 1) as [[d|] Hd]; [lia| |];
    rewrite Hd; [|done].
  rewrite bool_decide_eq_false_2 by done. by destruct (k <=? d)%Z.
Qed.

Lemma find_target_layer_found pre l post k :
  Forall (passed_over k) pre → qualifies k l = true →
  find_target_layer (pre ++ l :: post) k = OK (name l).
Proof.
  intros Hpre Hl. induction Hpre as [|l' pre [Hq Hu] _ IH].
  - simpl app. by rewrite find_target_layer_cons, Hl.
  - change ((l' :: pre) ++ l :: post) with (l' :: (pre ++ l :: post)).
    by rewrite find_target_layer_cons, Hq, Hu.
Qed.

Lemma find_target_layer_unknown pre l post k :
  Forall (passed_over k) pre → unknown_extent l = true →
  find_target_layer (pre ++ l :: post) k = Raise TypeError.
Proof.
  intros Hpre Hl. induction Hpre as [|l' pre [Hq Hu] _ IH].
  - simpl app. rewrite find_target_layer_cons, Hl.
    destruct (qualifies k l) eqn:Hq; [|done].
    unfold qualifies, unknown_extent in *.
    apply andb_prop in Hl as [_ Hn%bool_decide_eq_true]. rewrite Hn in Hq.
    by rewrite andb_false_r in Hq.
  - change ((l' :: pre) ++ l :: post) with (l' :: (pre ++ l :: post)).
    by rewrite find_target_layer_cons, Hq, Hu.
Qed.

Lemma find_target_layer_none ls k :
  Forall (passed_over k) ls →
  find_target_layer ls k
  = Raise (ValueError "Could not find 4D layer. Cannot apply GradCAM.").
Proof.
  induction 1 as [|l ls [Hq Hu] _ IH]; [done|].
  by rewrite find_target_layer_cons, Hq, Hu.
Qed.

Lemma find_target_layer_inv ls k found :
  find_target_layer ls k = OK found →
  ∃ pre l post, ls = pre ++ l :: post ∧ Forall (passed_over k) pre ∧
                qualifies k l = true ∧ found = name l.
Proof.
  induction ls as [|l ls IH]; [done|].
  rewrite find_target_layer_cons.
  destruct (qualifies k l) eqn:Hq.
  - intros [= <-]. by exists [], l, ls.
  - destruct (unknown_extent l) eqn:Hu; [done|].
    intros (pre & l' & post & -> & Hpre & Hl' & ->)%IH.
    exists (l :: pre), l', post. repeat split; try done.
    by apply Forall_cons.
Qed.

Lemma find_target_layer_ext ls1 ls2 k :
  name <$> ls1 = name <$> ls2 →
  output_shape <$> ls1 = output_shape <$> ls2 →
  find_target_layer ls1 k = find_target_layer ls2 k.
Proof.
  revert ls2. induction ls1 as [|l1 ls1 IH]; intros [|l2 ls2]; try done.
  intros [= Hn Hns] [= Ho Hos].
  rewrite !find_target_layer_cons. unfold qualifies, unknown_extent.
  rewrite Hn, Ho, (IH ls2) by done. done.
Qed.


(** ** Construction, run twice *)

Lemma linearize_layers_same model st1 m1 st1' st2 m2 st2' :
  linearize model st1 = OK (m1, st1') →
  linearize model st2 = OK (m2, st2') →
  name <$> layers m1 = name <$> layers m2 ∧
  output_shape <$> layers m1 = output_shape <$> layers m2.
Proof.
  intros (final & act & Hlast & Hcfg & H1)%linearize_inv
         (final' & act' & Hlast' & Hcfg' & H2)%linearize_inv.
  assert (final' = final) as -> by congruence.
  assert (act' = act) as -> by congruence.
  destruct H1 as [(Hne & -> & _)|(-> & H1)], H2 as [(Hne' & -> & _)|(He & H2)];
    try done.
  destruct H1 as (args & prev & nl & st3 & Hargs & Hprev & Hcall & -> & _ & _).
  destruct H2 as (args' & prev' & nl' & st3' & Hargs' & Hprev' & Hcall' & -> & _ & _).
  assert (args' = args) as -> by congruence.
  assert (prev' = prev) as -> by congruence.
  apply Dense_call_spec in Hcall as (Hn & _ & _ & Ho & _).
  apply Dense_call_spec in Hcall' as (Hn' & _ & _ & Ho' & _).
  cbn [layers]. rewrite !fmap_app. cbn [fmap list_fmap].
  by rewrite Hn, Hn', Ho, Ho'.
Qed.

Lemma read_weights_in_dom st l n d u :
  shape <$> read_weights st l = take n [[d; u]; [u]] →
  ∀ v, v ∈ weights l → v ∈ dom st.
Proof.
  intros Hshape v (i & Hi)%list_elem_of_lookup.
  apply (f_equal (λ l, l !! i)) in Hshape.
  unfold read_weights in Hshape.
  rewrite !list_lookup_fmap, Hi in Hshape. cbn [fmap option_fmap option_map] in Hshape.
  apply elem_of_dom. destruct (st !! v) as [a|]; [done|].
  cbn [default shape] in Hshape.
  destruct n as [|[|n]], i as [|[|i]]; simpl in Hshape; try done.
  by rewrite take_nil in Hshape.
Qed.

Lemma linearize_again model st m' st' :
  linearize model st = OK (m', st') →
  ∃ m2 st2, linearize model st' = OK (m2, st2).
Proof.
  intros Hrun. pose proof (linearize_frame _ _ _ _ Hrun) as Hframe.
  apply linearize_inv in Hrun as (final & act & Hlast & Hcfg & H).
  destruct H as [(Hne & -> & ->)|(-> & H)].
  { exists model, st. by eapply linearize_other. }
  destruct H as (args & prev & nl & st1 & Hargs & Hprev & Hcall & -> & Hnd & Hset).
  rewrite (linearize_softmax model st' final Hlast Hcfg), Hargs, Hprev.
  destruct (Dense_call_total args prev st nl st1 st' Hcall) as (nl2 & st3 & Hcall2).
  rewrite Hcall2.
  pose proof (Dense_call_spec _ _ _ _ _ Hcall)
    as (Hn & _ & _ & _ & Hlen & _ & _ & _ & (d & Hd & Hshapes)).
  pose proof (Dense_call_spec _ _ _ _ _ Hcall2)
    as (Hn2 & _ & _ & _ & Hlen2 & _ & _ & _ & (d2 & Hd2 & Hshapes2)).
  assert (d2 = d) as -> by congruence.
  unfold Model_new. rewrite bool_decide_eq_true_2.
  2:{ cbn [layers] in Hnd. rewrite fmap_app in *. cbn [fmap list_fmap] in *.
      by rewrite Hn2, <-Hn. }
  apply set_weights_spec in Hset as (Hwlen & Hwshape & _).
  assert (read_weights st' final = read_weights st final) as Hsame.
  { unfold read_weights. apply list_fmap_ext. intros i v Hv.
    rewrite Hframe; [done|].
    eapply read_weights_in_dom; [|by eapply list_elem_of_lookup_2].
    rewrite Hwshape, Hshapes. done. }
  destruct (set_weights_total nl2 (read_weights st' final) st3) as (st4 & ->).
  - rewrite Hsame, Hwlen. congruence.
  - rewrite Hsame, Hwshape, Hshapes, Hshapes2. congruence.
  - eauto.
Qed.


(** ** Selection of the target layer *)

Lemma scan_finds_some pre l post k :
  Forall (λ l', unknown_extent l' = false) pre → qualifies k l = true →
  ∃ found, find_target_layer (pre ++ l :: post) k = OK found.
Proof.
  intros Hpre Hl. induction Hpre as [|l' pre Hu _ IH].
  - exists (name l). by apply (find_target_layer_found []).
  - change ((l' :: pre) ++ l :: post) with (l' :: (pre ++ l :: post)).
    rewrite find_target_layer_cons, Hu. destruct (qualifies k l'); eauto.
Qed.

(** C5: with no explicit layer name, a construction that returns has
    selected, scanning the layers of the classifier it keeps from the last
    one backwards, the deepest stage whose output has rank 4 and whose
    dimension 1 is at least [target_layer_min_shape]: no qualifying stage
    comes after the selected one, so of two qualifying stages the later is
    selected. Any other construction on the same classifier and minimum
    selects the same name, and the construction run again returns. *)
Theorem target_layer_is_deepest (model : Model) (target_layer_min_shape : Z)
        (st : Store) (g : GradCAM) (st' : Store) :
  __init__ model None target_layer_min_shape st = OK (g, st') →
  (∃ i l,
     layers (self_model g) !! i = Some l ∧
     qualifies target_layer_min_shape l = true ∧
     self_target_layer_name g = name l ∧
     ∀ j lj, layers (self_model g) !! j = Some lj →
             qualifies target_layer_min_shape lj = true → j ≤ i) ∧
  (∀ st2 g2 st2',
     __init__ model None target_layer_min_shape st2 = OK (g2, st2') →
     self_target_layer_name g2 = self_target_layer_name g) ∧
  (∃ g2 st2', __init__ model None target_layer_min_shape st' = OK (g2, st2')).
Proof.
  intros [Hlin Hfind]%init_inv. split; [|split].
  - apply find_target_layer_inv in Hfind as (pre & l & post & Hrev & Hpre & Hl & Hname).
    assert (layers (self_model g) = reverse post ++ l :: reverse pre) as Hlayers.
    { rewrite <-(reverse_involutive (layers (self_model g))), Hrev.
      by rewrite reverse_app, reverse_cons, <-app_assoc. }
    exists (length (reverse post)), l. rewrite Hlayers. repeat split; try done.
    + by rewrite list_lookup_middle.
    + intros j lj Hj Hq.
      destruct (decide (j ≤ length (reverse post))) as [|Hgt]; [done|].
      rewrite lookup_app_r, lookup_cons_ne_0 in Hj by lia.
      apply list_elem_of_lookup_2 in Hj. rewrite elem_of_reverse in Hj.
      rewrite Forall_forall in Hpre. destruct (Hpre lj Hj) as [Hnq _]. congruence.
  - intros st2 g2 st2' [Hlin2 Hfind2]%init_inv.
    destruct (linearize_layers_same _ _ _ _ _ _ _ Hlin Hlin2) as [Hn Ho].
    rewrite (find_target_layer_ext _ (reverse (layers (self_model g2)))) in Hfind.
    + congruence.
    + by rewrite !fmap_reverse, Hn.
    + by rewrite !fmap_reverse, Ho.
  - destruct (linearize_again _ _ _ _ Hlin) as (m2 & st2 & Hlin2).
    destruct (linearize_layers_same _ _ _ _ _ _ _ Hlin Hlin2) as [Hn Ho].
    exists {| self_model := m2; self_target_layer_name := self_target_layer_name g |}, st2.
    unfold __init__. run Hlin2.
    rewrite (find_target_layer_ext _ (reverse (layers (self_model g)))).
    + unfold bind, lift, ret. by rewrite Hfind.
    + by rewrite !fmap_reverse, Hn.
    + by rewrite !fmap_reverse, Ho.
Qed.

(** C6, as the code has it: with no explicit layer name, once the handling
    of the final stage (lines 17-31) has produced the classifier to keep,
    the construction fails with the error of line 45 when every stage is
    passed over by the scan (none qualifies and no rank-4 stage has an
    unknown dimension 1), and it returns when some stage qualifies and no
    rank-4 stage after it has an unknown dimension 1. *)
Theorem no_spatial_layer_found (model : Model) (target_layer_min_shape : Z)
        (st : Store) (kept : Model) (st1 : Store) :
  linearize model st = OK (kept, st1) →
  (Forall (passed_over target_layer_min_shape) (layers kept) →
   __init__ model None target_layer_min_shape st
   = Raise (ValueError "Could not find 4D layer. Cannot apply GradCAM.")) ∧
  (∀ before l after,
     layers kept = before ++ l :: after →
     qualifies target_layer_min_shape l = true →
     Forall (λ l', unknown_extent l' = false) after →
     ∃ found,
       __init__ model None target_layer_min_shape st
       = OK ({| self_model := kept; self_target_layer_name := found |}, st1)).
Proof.
  intros Hlin. split.
  - intros Hall. unfold __init__. run Hlin.
    apply bind_Raise. unfold lift.
    rewrite find_target_layer_none; [done|]. by apply Forall_reverse.
  - intros before l after Hlayers Hl Hafter.
    destruct (scan_finds_some (reverse after) l (reverse before) target_layer_min_shape)
      as [found Hfound]; [by apply Forall_reverse|done|].
    exists found. unfold __init__. run Hlin.
    rewrite Hlayers, reverse_app, reverse_cons, <-app_assoc. cbn [app].
    unfold bind, lift, ret. by rewrite Hfound.
Qed.


(** ** What construction and the queries leave untouched *)

Lemma lift_bind_OK {A B} (r : Result A) (f : A → M B) st b st' :
  bind (lift r) f st = OK (b, st') ↔ ∃ a, r = OK a ∧ f a st = OK (b, st').
Proof.
  rewrite bind_OK. split.
  - intros (a & st1 & [-> ->]%lift_OK & H). eauto.
  - intros (a & -> & H). by exists a, st.
Qed.

Lemma compute_heatmap_store self image classIdx eps st heatmap st' :
  compute_heatmap self image classIdx eps st = OK (heatmap, st') → st' = st.
Proof.
  unfold compute_heatmap. intros (st0 & st1 & [= <- <-] & H)%bind_OK.
  apply lift_bind_OK in H as ([upto after] & _ & H).
  apply lift_bind_OK in H as (loss & _ & H).
  apply lift_bind_OK in H as ([ws cam] & _ & H).
  apply lift_bind_OK in H as (w & _ & H).
  apply lift_bind_OK in H as (h & _ & H).
  apply lift_bind_OK in H as (resized & _ & H).
  by apply lift_OK in H as [_ ->].
Qed.

Lemma overlay_heatmap_store self heatmap image alpha colormap st r st' :
  overlay_heatmap self heatmap image alpha colormap st = OK (r, st') → st' = st.
Proof.
  unfold overlay_heatmap. intros (colored & _ & H)%lift_bind_OK.
  apply lift_bind_OK in H as (output & _ & [= _ <-]). done.
Qed.

Lemma linearize_copies model st kept st' final :
  linearize model st = OK (kept, st') →
  last (layers model) = Some final →
  get_config final !! "activation" = Some (CStr "softmax") →
  ∃ new_final,
    kept = {| layers := removelast (layers model) ++ [new_final] |} ∧
    kind new_final = Dense ∧
    get_config new_final !! "activation" = Some (CStr "linear") ∧
    NoDup (weights new_final) ∧
    (∀ v, v ∈ weights new_final → v ∉ dom st) ∧
    read_weights st' new_final = read_weights st final.
Proof.
  intros (final' & act & Hlast & Hcfg & H)%linearize_inv Hlast' Hcfg'.
  assert (final' = final) as -> by congruence.
  assert (act = CStr "softmax") as -> by congruence.
  destruct H as [(Hne & _)|(_ & H)]; [done|].
  destruct H as (args & prev & nl & st1 & _ & _ & Hcall & -> & _ & Hset).
  apply Dense_call_spec in Hcall as (_ & Hkind & Hconf & _ & _ & Hnd & Hfresh & _).
  apply set_weights_spec in Hset as (_ & _ & _ & _ & Hread).
  exists nl. repeat split; try done.
  - rewrite Hconf. apply lookup_insert_eq.
  - by apply Hread.
Qed.

(** C9: construction changes no variable that existed before it, so the
    parameters of the original classifier are as they were; when the final
    stage is softmax, the variables of the new final stage are new ones and
    hold the values of the original's (a copy, not a shared variable); and
    the queries [compute_heatmap] and [overlay_heatmap] on the constructed
    object, which receive the stored pair and return only their result,
    leave every variable as it is. *)
Theorem construction_and_queries_frame (model : Model)
        (target_layer_name : option string) (target_layer_min_shape : Z)
        (st : Store) (g : GradCAM) (st' : Store) :
  __init__ model target_layer_name target_layer_min_shape st = OK (g, st') →
  (∀ v, v ∈ dom st → st' !! v = st !! v) ∧
  (∀ l, l ∈ layers model → Forall (λ v, v ∈ dom st) (weights l) →
        read_weights st' l = read_weights st l) ∧
  (∀ final,
     last (layers model) = Some final →
     get_config final !! "activation" = Some (CStr "softmax") →
     ∃ new_final,
       last (layers (self_model g)) = Some new_final ∧
       (∀ v, v ∈ weights new_final → v ∉ dom st) ∧
       read_weights st' new_final = read_weights st final) ∧
  (∀ image classIdx eps heatmap st2,
     compute_heatmap g image classIdx eps st' = OK (heatmap, st2) → st2 = st') ∧
  (∀ heatmap image alpha colormap r st2,
     overlay_heatmap g heatmap image alpha colormap st' = OK (r, st2) → st2 = st').
Proof.
  intros [Hlin _]%init_inv.
  pose proof (linearize_frame _ _ _ _ Hlin) as Hframe.
  split; [done|]. split; [|split; [|split]].
  - intros l _ Hall. unfold read_weights. apply list_fmap_ext. intros i v Hv.
    rewrite Hframe; [done|]. rewrite Forall_forall in Hall.
    by eapply Hall, list_elem_of_lookup_2.
  - intros final Hlast Hcfg.
    destruct (linearize_copies _ _ _ _ _ Hlin Hlast Hcfg)
      as (nf & Hkept & _ & _ & _ & Hfresh & Hread).
    exists nf. rewrite Hkept. cbn [layers]. by rewrite last_snoc.
  - intros image classIdx eps heatmap st2. apply compute_heatmap_store.
  - intros heatmap image alpha colormap r st2. apply overlay_heatmap_store.
Qed.


(** ** The linearised classifier *)

Lemma run_layers_snoc st ls l x :
  run_layers st (ls ++ [l]) x = layer_call st l (run_layers st ls x).
Proof. unfold run_layers. by rewrite foldl_app. Qed.

Lemma layer_call_frame st st' l x :
  read_weights st' l = read_weights st l → layer_call st' l x = layer_call st l x.
Proof. unfold layer_call. by intros ->. Qed.

Lemma run_layers_frame st st' ls x :
  (∀ l, l ∈ ls → read_weights st' l = read_weights st l) →
  run_layers st' ls x = run_layers st ls x.
Proof.
  revert x. induction ls as [|l ls IH]; intros x Hls; [done|].
  unfold run_layers. cbn [foldl]. fold (run_layers st' ls) (run_layers st ls).
  rewrite (layer_call_frame st st') by (apply Hls; by left).
  apply IH. intros l' Hl'. apply Hls. by right.
Qed.

Lemma read_weights_frame st st' l :
  (∀ v, v ∈ dom st → st' !! v = st !! v) →
  (∀ v, v ∈ weights l → v ∈ dom st) →
  read_weights st' l = read_weights st l.
Proof.
  intros Hframe Hdom. unfold read_weights. apply list_fmap_ext. intros i v Hv.
  rewrite Hframe; [done|]. by eapply Hdom, list_elem_of_lookup_2.
Qed.


Lemma py_index_penultimate {A} (earlier : list A) prev final :
  py_index (earlier ++ [prev; final]) (-2) = OK prev.
Proof.
  unfold py_index. rewrite length_app. cbn [length].
  assert (((-2 <? 0) = true)%Z) as -> by done.
  assert ((-2 + Z.of_nat (length earlier + 2))%Z = Z.of_nat (length earlier)) as -> by lia.
  rewrite Nat2Z.id.
  assert (((Z.of_nat (length earlier) <? 0)
           || (Z.of_nat (length earlier + 2) <=? Z.of_nat (length earlier)))%Z = false) as ->.
  { apply orb_false_intro; [apply Z.ltb_ge|apply Z.leb_gt]; lia. }
  by rewrite list_lookup_middle.
Qed.

Lemma Dense_new_linear_config final units :
  dom (get_config final) ⊆ list_to_set dense_kwargs →
  get_config final !! "units" = Some (CInt units) →
  (0 ≤ units)%Z →
  Dense_new (linear_config final)
  = OK {| dense_name := "new_layer";
          dense_units := Z.to_nat units;
          dense_use_bias := match get_config final !! "use_bias" with
                            | Some (CBool false) => false
                            | _ => true
                            end;
          dense_config := linear_config final |}.
Proof.
  intros Hdom Hunits Hpos. unfold Dense_new.
  rewrite bool_decide_eq_true_2.
  2:{ unfold linear_config. rewrite !dom_insert.
      intros k [->%elem_of_singleton|[->%elem_of_singleton|Hk]%elem_of_union]%elem_of_union.
      - by vm_compute.
      - by vm_compute.
      - by apply Hdom. }
  unfold linear_config at 1. rewrite !lookup_insert_ne, Hunits by done.
  assert ((units <? 0)%Z = false) as -> by (apply Z.ltb_ge; lia).
  unfold linear_config at 1 2. rewrite lookup_insert_eq, !lookup_insert_ne by done.
  done.
Qed.


Lemma Dense_call_run args prev st d rest :
  reverse (output_shape prev) = Some d :: rest → rest ≠ [] →
  ∃ new_layer st1, Dense_call args prev st = OK (new_layer, st1).
Proof.
  intros Hrev Hrest. unfold Dense_call. rewrite Hrev.
  destruct rest as [|r rest]; [done|].
  unfold bind, new_variable, ret. destruct (dense_use_bias args); eauto.
Qed.



(** ** Normalisation *)

Lemma Qc_min_le x y : (Qc_min x y ≤ x)%Qc ∧ (Qc_min x y ≤ y)%Qc.
Proof.
  unfold Qc_min. case_decide as Hle; split; try done.
  destruct (total Qcle x y); [done|]. done.
Qed.

Lemma Qc_max_ge x y : (x ≤ Qc_max x y)%Qc ∧ (y ≤ Qc_max x y)%Qc.
Proof.
  unfold Qc_max. case_decide as Hle; split; try done.
  destruct (total Qcle x y); [done|]. done.
Qed.

Lemma foldr_Qc_min_le x rest :
  Forall (λ y, foldr Qc_min x rest ≤ y)%Qc (x :: rest).
Proof.
  induction rest as [|z rest IH]; simpl.
  - by repeat constructor.
  - destruct (Qc_min_le z (foldr Qc_min x rest)) as [Hz Hr].
    apply Forall_cons_1 in IH as [Hx Hrest].
    constructor; [by etrans|]. constructor; [done|].
    eapply Forall_impl; [exact Hrest|]. intros y Hy. simpl in *. by etrans.
Qed.

Lemma foldr_Qc_max_ge x rest :
  Forall (λ y, y ≤ foldr Qc_max x rest)%Qc (x :: rest).
Proof.
  induction rest as [|z rest IH]; simpl.
  - by repeat constructor.
  - destruct (Qc_max_ge z (foldr Qc_max x rest)) as [Hz Hr].
    apply Forall_cons_1 in IH as [Hx Hrest].
    constructor; [by etrans|]. constructor; [done|].
    eapply Forall_impl; [exact Hrest|]. intros y Hy. simpl in *. by etrans.
Qed.

Lemma constant_map heatmap v :
  np_max heatmap = OK v → np_min heatmap = OK v →
  data heatmap ≠ [] ∧ Forall (λ y, y = v) (data heatmap).
Proof.
  unfold np_max, np_min. destruct (data heatmap) as [|x rest]; [done|].
  intros [= Hmax] [= Hmin]. split; [done|].
  pose proof (foldr_Qc_min_le x rest) as Hlo.
  pose proof (foldr_Qc_max_ge x rest) as Hhi.
  rewrite Hmin in Hlo. rewrite Hmax in Hhi.
  rewrite Forall_forall in *. intros y Hy.
  apply Qcle_antisym; auto.
Qed.

Lemma Qc_trunc_zero : Qc_trunc 0%Qc = 0%Z.
Proof. done. Qed.

Lemma mod_256_uint8 z : is_uint8 (z mod 256).
Proof. unfold is_uint8. pose proof (Z.mod_pos_bound z 256). lia. Qed.

Lemma astype_uint8_range a : Forall is_uint8 (data (astype_uint8 a)).
Proof.
  unfold astype_uint8. cbn [data]. apply Forall_fmap, Forall_true.
  intros [x| |]; simpl; [apply mod_256_uint8|done..].
Qed.

Lemma normalize_heatmap_inv heatmap eps out :
  normalize_heatmap heatmap eps = OK out →
  shape out = shape heatmap ∧ length (data out) = length (data heatmap) ∧
  Forall is_uint8 (data out).
Proof.
  unfold normalize_heatmap, heatmap_ratio.
  destruct (np_min heatmap) as [lo|]; [|done]. cbn [mbind Result_bind].
  destruct (heatmap_denom heatmap eps) as [denom|]; [|done].
  cbn [mbind Result_bind mret Result_ret]. intros [= <-].
  split; [done|]. split; [|apply astype_uint8_range].
  unfold astype_uint8. cbn [data shape]. by rewrite !length_fmap.
Qed.


Lemma heatmap_ratio_constant heatmap denom v :
  np_max heatmap = OK v → np_min heatmap = OK v →
  ∀ eps, heatmap_denom heatmap eps = OK denom →
  heatmap_ratio heatmap eps
  = OK (NDArray (shape heatmap)
                (replicate (length (data heatmap)) (np_divide 0%Qc denom))).
Proof.
  intros Hmax Hmin eps Hdenom.
  destruct (constant_map heatmap v Hmax Hmin) as [_ Hall].
  unfold heatmap_ratio. rewrite Hmin, Hdenom.
  cbn [mbind Result_bind mret Result_ret shape data]. do 2 f_equal.
  rewrite <-list_fmap_compose. clear Hmax Hmin Hdenom.
  induction Hall as [|y ys -> _ IH]; [done|].
  cbn [fmap list_fmap length replicate]. f_equal; [|exact IH].
  unfold compose, Qcminus. by rewrite Qcplus_opp_r.
Qed.

(** Without the guard the same map divides zero by zero: with [eps = 0]
    every quotient of a constant map is NaN. *)
Lemma constant_map_unguarded heatmap v :
  np_max heatmap = OK v → np_min heatmap = OK v →
  heatmap_ratio heatmap 0%Qc
  = OK (NDArray (shape heatmap) (replicate (length (data heatmap)) NaN)).
Proof.
  intros Hmax Hmin.
  rewrite (heatmap_ratio_constant heatmap 0%Qc v Hmax Hmin); [done|].
  unfold heatmap_denom. rewrite Hmax, Hmin. cbn [mbind Result_bind mret Result_ret].
  f_equal. unfold Qcminus. by rewrite Qcplus_opp_r, Qcplus_0_l.
Qed.

(** C4: in the normalisation step, for a positive [eps] and a resized map
    whose maximum equals its minimum, the divisor is [eps] itself, which is
    not zero; every quotient is the finite value 0, neither NaN nor an
    infinity; no error is raised, and the heatmap returned is zero
    everywhere. *)
Theorem constant_map_gives_zero_heatmap (heatmap : ndarray Qc) (eps v : Qc) :
  (0 < eps)%Qc →
  np_max heatmap = OK v →
  np_min heatmap = OK v →
  heatmap_denom heatmap eps = OK eps ∧
  eps ≠ 0%Qc ∧
  heatmap_ratio heatmap eps
  = OK (NDArray (shape heatmap) (replicate (length (data heatmap)) (Finite 0%Qc))) ∧
  normalize_heatmap heatmap eps
  = OK (NDArray (shape heatmap) (replicate (length (data heatmap)) 0%Z)).
Proof.
  intros Heps Hmax Hmin.
  assert (heatmap_denom heatmap eps = OK eps) as Hdenom.
  { unfold heatmap_denom. rewrite Hmax, Hmin. cbn [mbind Result_bind mret Result_ret].
    f_equal. unfold Qcminus. by rewrite Qcplus_opp_r, Qcplus_0_l. }
  assert (eps ≠ 0%Qc) as Hne.
  { intros ->. by apply Qclt_not_eq in Heps. }
  assert (np_divide 0%Qc eps = Finite 0%Qc) as Hzero.
  { unfold np_divide. rewrite decide_False by done.
    unfold Qcdiv. by rewrite Qcmult_0_l. }
  pose proof (heatmap_ratio_constant heatmap eps v Hmax Hmin eps Hdenom) as Hratio.
  rewrite Hzero in Hratio.
  split; [done|]. split; [done|]. split; [done|].
  unfold normalize_heatmap. rewrite Hratio.
  cbn [mbind Result_bind mret Result_ret]. unfold astype_uint8. cbn [shape data].
  do 2 f_equal. rewrite <-list_fmap_compose, fmap_replicate.
  unfold compose. cbn [np_multiply]. by rewrite Qcmult_0_l, Qc_trunc_zero.
Qed.


(** ** The heatmap: size, range, class index *)


Lemma class_activation_map_shape convOutputs guidedGrads b h w c :
  shape convOutputs = [S b; h; w; c] →
  shape guidedGrads = shape convOutputs →
  ∃ ws cam, class_activation_map convOutputs guidedGrads = OK (ws, cam) ∧
            shape cam = [h; w].
Proof.
  intros Hshape Hg. unfold class_activation_map.
  rewrite (getitem0_spec convOutputs b [h; w; c]) by done.
  rewrite (getitem0_spec guidedGrads b [h; w; c]) by congruence.
  cbn [mbind Result_bind]. unfold tf_reduce_mean_01. cbn [shape].
  cbn [mbind Result_bind]. unfold tf_reduce_sum_last, tf_multiply_bcast. cbn [shape].
  cbn [reverse rev_append mbind Result_bind mret Result_ret]. eauto.
Qed.

Lemma length_join_rows {A} (f : nat → nat → A) w h :
  length (mjoin ((λ i, (λ j, f i j) <$> seq 0 w) <$> seq 0 h)) = h * w.
Proof.
  rewrite (length_join_uniform w).
  - by rewrite length_fmap, length_seq.
  - apply Forall_fmap, Forall_true. intros i. simpl.
    by rewrite length_fmap, length_seq.
Qed.


Lemma py_index_lookup {A} (l : list A) (i : nat) x :
  py_index l (Z.of_nat i) = OK x → l !! i = Some x.
Proof.
  unfold py_index.
  assert ((Z.of_nat i <? 0)%Z = false) as -> by (apply Z.ltb_ge; lia).
  destruct (_ || _)%Z; [done|]. rewrite Nat2Z.id.
  by destruct (l !! i) as [y|]; intros [= ->].
Qed.

Lemma cv2_resize_inv src w h resized :
  cv2_resize src (w, h) = OK resized →
  shape resized = [h; w] ∧ length (data resized) = h * w.
Proof.
  unfold cv2_resize. destruct (shape src) as [|rows [|cols [|]]]; try done.
  case_bool_decide; [|done]. intros [= <-]. split; [done|].
  cbn [data]. apply length_join_rows.
Qed.

(** Every heatmap [compute_heatmap] returns has the height and the width
    of the image, whatever the target layer is. *)
Lemma compute_heatmap_returns_image_size self image classIdx eps st heatmap st' :
  compute_heatmap self image classIdx eps st = OK (heatmap, st') →
  ∃ H W, shape image !! 1 = Some H ∧ shape image !! 2 = Some W ∧
         shape heatmap = [H; W] ∧ wf_array heatmap ∧
         Forall is_uint8 (data heatmap).
Proof.
  unfold compute_heatmap. intros (st0 & st1 & [= <- <-] & H)%bind_OK.
  apply lift_bind_OK in H as ([upto after] & _ & H).
  apply lift_bind_OK in H as (loss & _ & H).
  apply lift_bind_OK in H as ([ws cam] & _ & H).
  apply lift_bind_OK in H as (w & Hw & H).
  apply lift_bind_OK in H as (h & Hh & H).
  apply lift_bind_OK in H as (resized & Hres & H).
  apply lift_OK in H as [Hnorm _].
  apply cv2_resize_inv in Hres as [Hrshape Hrlen].
  apply normalize_heatmap_inv in Hnorm as (Hshape & Hlen & Hrange).
  exists h, w. repeat split; try done.
  - by apply (py_index_lookup (shape image) 1).
  - by apply (py_index_lookup (shape image) 2).
  - congruence.
  - unfold wf_array. rewrite Hlen, Hrlen, Hshape, Hrshape. simpl. lia.
Qed.


(** C7, as the code has it: when the target layer is found and the scores
    have [n] classes, a class index of [n] or more, or below [-n], makes
    [compute_heatmap] fail with the error of the slice; an index from [-n]
    to [-1] is accepted and selects the class [classIdx + n]. *)
Theorem class_index_out_of_range (self : GradCAM) (image : ndarray Qc)
        (classIdx : Z) (eps : Qc) (st : Store) (upto after : list Layer)
        (b n : nat) (rest : list nat) :
  get_layer (layers (self_model self)) (self_target_layer_name self) = OK (upto, after) →
  shape (run_layers st after (run_layers st upto image)) = b :: n :: rest →
  ((Z.of_nat n ≤ classIdx ∨ classIdx < - Z.of_nat n)%Z →
   compute_heatmap self image classIdx eps st = Raise InvalidArgumentError) ∧
  ((- Z.of_nat n ≤ classIdx < 0)%Z →
   is_OK (getitem_col (run_layers st after (run_layers st upto image)) classIdx) ∧
   getitem_col (run_layers st after (run_layers st upto image)) classIdx
   = getitem_col (run_layers st after (run_layers st upto image))
                 (classIdx + Z.of_nat n)).
Proof.
  intros Hlayer Hshape. split.
  - intros Hout. unfold compute_heatmap. run_store. run_lift Hlayer.
    apply bind_Raise. unfold lift, getitem_col. rewrite Hshape.
    destruct (classIdx <? 0)%Z eqn:Hneg.
    + apply Z.ltb_lt in Hneg.
      assert ((classIdx + Z.of_nat n <? 0)%Z = true) as -> by (apply Z.ltb_lt; lia).
      done.
    + apply Z.ltb_ge in Hneg.
      assert ((classIdx <? 0)%Z = false) as Hn' by (apply Z.ltb_ge; lia).
      assert ((Z.of_nat n <=? classIdx)%Z = true) as -> by (apply Z.leb_le; lia).
      by rewrite orb_true_r.
  - intros [Hlo Hhi]. unfold is_OK, getitem_col. rewrite Hshape.
    assert ((classIdx <? 0)%Z = true) as -> by (apply Z.ltb_lt; lia).
    assert ((classIdx + Z.of_nat n <? 0)%Z = false) as Hnonneg by (apply Z.ltb_ge; lia).
    assert ((Z.of_nat n <=? classIdx + Z.of_nat n)%Z = false) as Hbelow
        by (apply Z.leb_gt; lia).
    cbn zeta. rewrite !Hnonneg, !Hbelow. cbn [orb]. split; [eauto|done].
Qed.


(** ** The overlay *)







(** * Further properties

    Properties of the three methods beyond the ones above: the cells of the
    normalised heatmap, the sign and the vanishing of the guided gradients,
    the outputs of the gradient model, the edge cases of the construction,
    the reverse scan and the overlay. *)

(** ** Normalisation, cell by cell *)

Lemma Qcinv_pos d : (0 < d)%Qc → (0 < / d)%Qc.
Proof.
  intros Hd. destruct (Qclt_le_dec 0 (/ d)) as [|Hle]; [done|exfalso].
  apply (Qcmult_le_compat_r _ _ d) in Hle; [|by apply Qclt_le_weak].
  rewrite Qcmult_inv_l, Qcmult_0_l in Hle by (intros ->; by apply Qclt_not_eq in Hd).
  by apply Qcle_not_lt in Hle.
Qed.

Lemma Qcdiv_le_compat n m d : (n ≤ m)%Qc → (0 < d)%Qc → (n / d ≤ m / d)%Qc.
Proof.
  intros Hnm Hd. unfold Qcdiv.
  apply Qcmult_le_compat_r; [done|]. by apply Qclt_le_weak, Qcinv_pos.
Qed.

Lemma Qcdiv_0_l d : (0 / d)%Qc = 0%Qc.
Proof. unfold Qcdiv. apply Qcmult_0_l. Qed.

Lemma Qcdiv_same d : (0 < d)%Qc → (d / d)%Qc = 1%Qc.
Proof.
  intros Hd. unfold Qcdiv. apply Qcmult_inv_r. intros ->. by apply Qclt_not_eq in Hd.
Qed.

Lemma scale_255_le p q : (p ≤ q)%Qc → (p * Qc_of_Z 255 ≤ q * Qc_of_Z 255)%Qc.
Proof. intros Hpq. by apply Qcmult_le_compat_r. Qed.

(** A quotient between 0 and 1, scaled by 255, is converted to its integer
    part, which eight bits hold. *)
Lemma astype_uint8_cell q :
  (0 ≤ q)%Qc → (q ≤ 1)%Qc →
  (Qc_trunc (q * Qc_of_Z 255) mod 256)%Z = Qfloor (q * Qc_of_Z 255)%Qc ∧
  is_uint8 (Qfloor (q * Qc_of_Z 255)%Qc).
Proof.
  intros H0 H1.
  assert (0 ≤ q * Qc_of_Z 255)%Qc as Hlo.
  { apply scale_255_le in H0. by rewrite Qcmult_0_l in H0. }
  assert (q * Qc_of_Z 255 ≤ Qc_of_Z 255)%Qc as Hhi.
  { apply scale_255_le in H1. by rewrite Qcmult_1_l in H1. }
  assert (is_uint8 (Qfloor (q * Qc_of_Z 255)%Qc)) as Hrange.
  { split.
    - change 0%Z with (Qfloor 0). by apply Qfloor_resp_le.
    - change 255%Z with (Qfloor (Qc_of_Z 255)). by apply Qfloor_resp_le. }
  split; [|done]. unfold Qc_trunc. rewrite decide_True by done.
  unfold is_uint8 in Hrange. apply Z.mod_small. lia.
Qed.

Lemma foldr_Qc_min_elem x rest : foldr Qc_min x rest ∈ x :: rest.
Proof.
  induction rest as [|z rest IH]; simpl; [by left|].
  unfold Qc_min at 1. case_decide; [right; by left|].
  apply elem_of_cons in IH as [->|IH]; [by left|by do 2 right].
Qed.

Lemma foldr_Qc_max_elem x rest : foldr Qc_max x rest ∈ x :: rest.
Proof.
  induction rest as [|z rest IH]; simpl; [by left|].
  unfold Qc_max at 1. case_decide; [|right; by left].
  apply elem_of_cons in IH as [->|IH]; [by left|by do 2 right].
Qed.

Lemma np_min_spec heatmap lo :
  np_min heatmap = OK lo →
  lo ∈ data heatmap ∧ Forall (λ y, lo ≤ y)%Qc (data heatmap).
Proof.
  unfold np_min. destruct (data heatmap) as [|x rest]; [done|]. intros [= <-].
  split; [apply foldr_Qc_min_elem|apply foldr_Qc_min_le].
Qed.

Lemma np_max_spec heatmap hi :
  np_max heatmap = OK hi →
  hi ∈ data heatmap ∧ Forall (λ y, y ≤ hi)%Qc (data heatmap).
Proof.
  unfold np_max. destruct (data heatmap) as [|x rest]; [done|]. intros [= <-].
  split; [apply foldr_Qc_max_elem|apply foldr_Qc_max_ge].
Qed.

Lemma Qcminus_le_compat_r x y z : (x ≤ y)%Qc → (x - z ≤ y - z)%Qc.
Proof. intros Hxy. unfold Qcminus. by apply Qcplus_le_compat. Qed.

Lemma Qcminus_diag x : (x - x)%Qc = 0%Qc.
Proof. apply Qcplus_opp_r. Qed.

(** The quotient of a cell between the minimum and the maximum, for a
    divisor [(hi - lo) + eps] that is positive with [eps] not negative. *)
Lemma heatmap_quotient_bounds lo hi eps x :
  (lo ≤ x)%Qc → (x ≤ hi)%Qc → (0 ≤ eps)%Qc → (0 < hi - lo + eps)%Qc →
  (0 ≤ (x - lo) / (hi - lo + eps))%Qc ∧ ((x - lo) / (hi - lo + eps) ≤ 1)%Qc.
Proof.
  intros Hlo Hhi Heps Hd. split.
  - rewrite <-(Qcdiv_0_l (hi - lo + eps)). apply Qcdiv_le_compat; [|done].
    rewrite <-(Qcminus_diag lo). by apply Qcminus_le_compat_r.
  - rewrite <-(Qcdiv_same (hi - lo + eps)) by done. apply Qcdiv_le_compat; [|done].
    rewrite <-(Qcplus_0_r (x - lo)). apply Qcplus_le_compat; [|done].
    by apply Qcminus_le_compat_r.
Qed.

Lemma heatmap_ratio_run heatmap eps lo hi :
  np_min heatmap = OK lo → np_max heatmap = OK hi →
  heatmap_ratio heatmap eps
  = OK (NDArray (shape heatmap)
                ((λ x, np_divide (x - lo) (hi - lo + eps)) <$> data heatmap)).
Proof.
  intros Hmin Hmax. unfold heatmap_ratio, heatmap_denom. rewrite Hmin, Hmax.
  cbn [mbind Result_bind mret Result_ret shape data].
  by rewrite <-list_fmap_compose.
Qed.

Lemma normalize_heatmap_run heatmap eps lo hi :
  np_min heatmap = OK lo → np_max heatmap = OK hi →
  normalize_heatmap heatmap eps
  = OK (astype_uint8
          (NDArray (shape heatmap)
                   ((λ x, np_multiply (np_divide (x - lo) (hi - lo + eps)) (Qc_of_Z 255))
                      <$> data heatmap))).
Proof.
  intros Hmin Hmax. unfold normalize_heatmap.
  rewrite (heatmap_ratio_run heatmap eps lo hi Hmin Hmax).
  cbn [mbind Result_bind mret Result_ret shape data].
  by rewrite <-list_fmap_compose.
Qed.

Lemma normalize_heatmap_floor heatmap eps lo hi :
  np_min heatmap = OK lo →
  np_max heatmap = OK hi →
  (0 ≤ eps)%Qc →
  (0 < hi - lo + eps)%Qc →
  normalize_heatmap heatmap eps
  = OK (NDArray (shape heatmap)
                ((λ x, Qfloor ((x - lo) / (hi - lo + eps) * Qc_of_Z 255)%Qc)
                   <$> data heatmap)) ∧
  Forall (λ x, is_uint8 (Qfloor ((x - lo) / (hi - lo + eps) * Qc_of_Z 255)%Qc))
         (data heatmap).
Proof.
  intros Hmin Hmax Heps Hd.
  rewrite (normalize_heatmap_run heatmap eps lo hi Hmin Hmax).
  apply np_min_spec in Hmin as [_ Hlo]. apply np_max_spec in Hmax as [_ Hhi].
  rewrite Forall_forall in Hlo, Hhi.
  assert (∀ x, x ∈ data heatmap →
               (0 ≤ (x - lo) / (hi - lo + eps))%Qc ∧ ((x - lo) / (hi - lo + eps) ≤ 1)%Qc)
    as Hbounds.
  { intros x Hx. apply heatmap_quotient_bounds; auto. }
  split.
  - unfold astype_uint8. cbn [shape data]. do 2 f_equal.
    rewrite <-list_fmap_compose. apply Forall_fmap_ext_1, Forall_forall.
    intros x Hx. unfold compose, np_divide.
    rewrite decide_False by (intros Hz; rewrite Hz in Hd; by apply Qclt_not_eq in Hd).
    cbn [np_multiply]. destruct (Hbounds x Hx) as [H0 H1].
    by destruct (astype_uint8_cell _ H0 H1) as [-> _].
  - apply Forall_forall. intros x Hx. destruct (Hbounds x Hx) as [H0 H1].
    by destruct (astype_uint8_cell _ H0 H1) as [_ ?].
Qed.


Lemma np_min_le_max heatmap lo hi :
  np_min heatmap = OK lo → np_max heatmap = OK hi → (lo ≤ hi)%Qc.
Proof.
  intros [Hin _]%np_min_spec [_ Hhi]%np_max_spec.
  rewrite Forall_forall in Hhi. by apply Hhi.
Qed.

Lemma heatmap_denom_run heatmap eps lo hi :
  np_min heatmap = OK lo → np_max heatmap = OK hi →
  heatmap_denom heatmap eps = OK (hi - lo + eps)%Qc.
Proof. intros Hmin Hmax. unfold heatmap_denom. by rewrite Hmax, Hmin. Qed.

Lemma heatmap_denom_pos heatmap eps lo hi :
  np_min heatmap = OK lo → np_max heatmap = OK hi → (0 < eps)%Qc →
  (0 < hi - lo + eps)%Qc.
Proof.
  intros Hmin Hmax Heps. pose proof (np_min_le_max heatmap lo hi Hmin Hmax) as Hle.
  apply (Qcminus_le_compat_r _ _ lo) in Hle. rewrite Qcminus_diag in Hle.
  eapply Qclt_le_trans; [exact Heps|].
  rewrite <-(Qcplus_0_l eps) at 1. by apply Qcplus_le_compat.
Qed.

Lemma np_min_max_nonempty heatmap :
  data heatmap ≠ [] → ∃ lo hi, np_min heatmap = OK lo ∧ np_max heatmap = OK hi.
Proof.
  intros Hne. unfold np_min, np_max. destruct (data heatmap); [done|]. eauto.
Qed.

(** X2: with a positive [eps] the division of the normalisation never has a
    zero divisor, whatever the map is: for every map that is not empty the
    divisor is positive, no error is raised, and every quotient is a finite
    number between 0 and 1, neither NaN nor an infinity. *)
Theorem positive_eps_quotients_finite (heatmap : ndarray Qc) (eps : Qc) :
  (0 < eps)%Qc →
  data heatmap ≠ [] →
  ∃ denom ratio out,
    heatmap_denom heatmap eps = OK denom ∧ (0 < denom)%Qc ∧
    heatmap_ratio heatmap eps = OK ratio ∧
    Forall (λ r, ∃ q, r = Finite q ∧ (0 ≤ q)%Qc ∧ (q ≤ 1)%Qc) (data ratio) ∧
    normalize_heatmap heatmap eps = OK out.
Proof.
  intros Heps Hne.
  destruct (np_min_max_nonempty heatmap Hne) as (lo & hi & Hmin & Hmax).
  pose proof (heatmap_denom_pos heatmap eps lo hi Hmin Hmax Heps) as Hd.
  eexists _, _, _. split; [by apply heatmap_denom_run|]. split; [done|].
  split; [by apply heatmap_ratio_run|].
  split; [|by apply normalize_heatmap_run].
  cbn [data]. apply Forall_fmap, Forall_forall. intros x Hx. unfold compose.
  pose proof Hmin as [_ Hlo]%np_min_spec. pose proof Hmax as [_ Hhi]%np_max_spec.
  rewrite Forall_forall in Hlo, Hhi.
  unfold np_divide.
  rewrite decide_False by (intros Hz; rewrite Hz in Hd; by apply Qclt_not_eq in Hd).
  eexists. split; [done|].
  apply heatmap_quotient_bounds; auto. by apply Qclt_le_weak.
Qed.

(** X3: the normalisation keeps the order of the cells and sends the
    smallest to 0: for a divisor that is positive, a cell that is not
    above another in the resized map is not above it in the heatmap, and a
    cell that holds the minimum of the map becomes 0. *)
Theorem normalize_heatmap_keeps_order (heatmap : ndarray Qc) (eps denom lo : Qc)
        (out : ndarray Z) :
  (0 ≤ eps)%Qc →
  heatmap_denom heatmap eps = OK denom →
  (0 < denom)%Qc →
  np_min heatmap = OK lo →
  normalize_heatmap heatmap eps = OK out →
  (∀ i j x y a b,
     data heatmap !! i = Some x → data heatmap !! j = Some y →
     data out !! i = Some a → data out !! j = Some b →
     (x ≤ y)%Qc → (a ≤ b)%Z) ∧
  (∀ i, data heatmap !! i = Some lo → data out !! i = Some 0%Z) ∧
  0%Z ∈ data out.
Proof.
  intros Heps Hdenom Hd Hmin Hout.
  destruct (np_max heatmap) as [hi|] eqn:Hmax.
  2:{ unfold heatmap_denom in Hdenom. by rewrite Hmax in Hdenom. }
  rewrite (heatmap_denom_run heatmap eps lo hi Hmin Hmax) in Hdenom.
  injection Hdenom as <-.
  destruct (normalize_heatmap_floor heatmap eps lo hi Hmin Hmax Heps Hd) as [Hcells _].
  rewrite Hcells in Hout. injection Hout as <-. cbn [data].
  assert (∀ i, data heatmap !! i = Some lo →
               ((λ x, Qfloor ((x - lo) / (hi - lo + eps) * Qc_of_Z 255)%Qc)
                  <$> data heatmap) !! i = Some 0%Z) as Hzero.
  { intros i Hi. rewrite list_lookup_fmap, Hi. cbn [fmap option_fmap option_map].
    by rewrite Qcminus_diag, Qcdiv_0_l, Qcmult_0_l. }
  split; [|split; [done|]].
  - intros i j x y a b Hx Hy. rewrite !list_lookup_fmap, Hx, Hy.
    intros [= <-] [= <-] Hxy.
    assert ((x - lo) / (hi - lo + eps) * Qc_of_Z 255
            ≤ (y - lo) / (hi - lo + eps) * Qc_of_Z 255)%Qc as Hle.
    { apply scale_255_le, Qcdiv_le_compat; [|done]. by apply Qcminus_le_compat_r. }
    by apply Qfloor_resp_le.
  - pose proof Hmin as [(i & Hi)%list_elem_of_lookup _]%np_min_spec.
    eapply list_elem_of_lookup_2. by apply Hzero.
Qed.

(** X4: with [eps = 0] a map that is not constant is spread over the whole
    range: no error is raised, the cells that hold the minimum become 0
    and those that hold the maximum become 255, and both values occur in
    the heatmap. *)
Theorem zero_eps_uses_full_range (heatmap : ndarray Qc) (lo hi : Qc) :
  np_min heatmap = OK lo →
  np_max heatmap = OK hi →
  (lo < hi)%Qc →
  ∃ out,
    normalize_heatmap heatmap 0%Qc = OK out ∧
    (∀ i, data heatmap !! i = Some lo → data out !! i = Some 0%Z) ∧
    (∀ i, data heatmap !! i = Some hi → data out !! i = Some 255%Z) ∧
    0%Z ∈ data out ∧ 255%Z ∈ data out.
Proof.
  intros Hmin Hmax Hlt.
  assert (0 < hi - lo + 0)%Qc as Hd.
  { rewrite Qcplus_0_r. by apply Qclt_minus_iff in Hlt. }
  assert (0 ≤ 0)%Qc as Heps by done.
  destruct (normalize_heatmap_floor heatmap 0 lo hi Hmin Hmax Heps Hd) as [Hcells _].
  eexists. split; [exact Hcells|]. cbn [data].
  assert (∀ i, data heatmap !! i = Some lo →
               ((λ x, Qfloor ((x - lo) / (hi - lo + 0) * Qc_of_Z 255)%Qc)
                  <$> data heatmap) !! i = Some 0%Z) as Hzero.
  { intros i Hi. rewrite list_lookup_fmap, Hi. cbn [fmap option_fmap option_map].
    by rewrite Qcminus_diag, Qcdiv_0_l, Qcmult_0_l. }
  assert (∀ i, data heatmap !! i = Some hi →
               ((λ x, Qfloor ((x - lo) / (hi - lo + 0) * Qc_of_Z 255)%Qc)
                  <$> data heatmap) !! i = Some 255%Z) as Hfull.
  { intros i Hi. rewrite list_lookup_fmap, Hi. cbn [fmap option_fmap option_map].
    rewrite Qcplus_0_r in *. by rewrite Qcdiv_same, Qcmult_1_l. }
  split; [done|]. split; [done|]. split.
  - pose proof Hmin as [(i & Hi)%list_elem_of_lookup _]%np_min_spec.
    eapply list_elem_of_lookup_2. by apply Hzero.
  - pose proof Hmax as [(i & Hi)%list_elem_of_lookup _]%np_max_spec.
    eapply list_elem_of_lookup_2. by apply Hfull.
Qed.

(** X5: with [eps = 0] a constant map divides zero by zero: no error is
    raised, the divisor is 0 and every quotient is NaN. *)
Theorem zero_eps_constant_map_is_nan (heatmap : ndarray Qc) (v : Qc) :
  np_max heatmap = OK v →
  np_min heatmap = OK v →
  heatmap_denom heatmap 0%Qc = OK 0%Qc ∧
  heatmap_ratio heatmap 0%Qc
  = OK (NDArray (shape heatmap) (replicate (length (data heatmap)) NaN)) ∧
  is_OK (normalize_heatmap heatmap 0%Qc).
Proof.
  intros Hmax Hmin. split; [|split].
  - rewrite (heatmap_denom_run heatmap 0 v v Hmin Hmax).
    by rewrite Qcminus_diag, Qcplus_0_l.
  - by apply (constant_map_unguarded heatmap v).
  - unfold is_OK. rewrite (normalize_heatmap_run heatmap 0 v v Hmin Hmax). eauto.
Qed.
(** ** Guided gradients: sign, vanishing, batch *)

Section reductions.

(** A property of the cells that the sums and the mean of
    [class_activation_map] keep. *)
Variable P : Qc → Prop.
Hypothesis P_zero : P 0%Qc.
Hypothesis P_plus : ∀ x y, P x → P y → P (x + y)%Qc.

Lemma Forall_vec_add u v : Forall P u → Forall P v → Forall P (vec_add u v).
Proof using Type*.
  intros Hu. revert v. induction Hu as [|x u Hx _ IH]; intros [|y v] Hv; try constructor.
  - apply P_plus; [done|]. by apply Forall_cons_1 in Hv as [? _].
  - apply IH. by apply Forall_cons_1 in Hv as [_ ?].
Qed.

Lemma Forall_rows_of n c (l : list Qc) :
  Forall P l → Forall (Forall P) (rows_of n c l).
Proof using Type*.
  intros Hl. unfold rows_of. apply Forall_fmap, Forall_true. intros p. simpl.
  by apply Forall_take, Forall_drop.
Qed.

Lemma Forall_foldr_vec_add c rows :
  Forall (Forall P) rows → Forall P (foldr vec_add (replicate c 0%Qc) rows).
Proof using Type*.
  induction 1 as [|r rows Hr _ IH]; simpl.
  - by apply Forall_replicate.
  - by apply Forall_vec_add.
Qed.

Lemma Forall_sum_list_Qc l : Forall P l → P (sum_list_Qc l).
Proof using Type*. induction 1 as [|x l Hx _ IH]; simpl; [done|by apply P_plus]. Qed.

Lemma Forall_tf_reduce_mean_01 t ws :
  (∀ x n, P x → P (x / Qc_of_nat n)%Qc) →
  Forall P (data t) → tf_reduce_mean_01 t = OK ws → Forall P (data ws).
Proof using Type*.
  intros Hdiv Ht. unfold tf_reduce_mean_01.
  destruct (shape t) as [|h [|w rest]]; try done. intros [= <-]. cbn [data].
  apply Forall_fmap. eapply Forall_impl.
  - by apply Forall_foldr_vec_add, Forall_rows_of.
  - intros x Hx. by apply Hdiv.
Qed.

Lemma Forall_tf_reduce_sum_last t cam :
  Forall P (data t) → tf_reduce_sum_last t = OK cam → Forall P (data cam).
Proof using Type*.
  intros Ht. unfold tf_reduce_sum_last.
  destruct (reverse (shape t)) as [|c tini]; [done|]. intros [= <-]. cbn [data].
  apply Forall_fmap. eapply Forall_impl; [by apply Forall_rows_of|].
  intros r Hr. by apply Forall_sum_list_Qc.
Qed.

End reductions.

Lemma Qc_of_nat_nonneg n : (0 ≤ Qc_of_nat n)%Qc.
Proof.
  unfold Qc_of_nat, Qc_of_Z, Qcle. cbn [this Q2Qc]. rewrite Qred_correct.
  change (inject_Z 0 <= inject_Z (Z.of_nat n))%Q. rewrite <-Zle_Qle. lia.
Qed.

Lemma Qcinv_nonneg d : (0 ≤ d)%Qc → (0 ≤ / d)%Qc.
Proof.
  intros Hd. destruct (decide (d = 0%Qc)) as [->|Hne]; [done|].
  apply Qclt_le_weak, Qcinv_pos. apply Qcle_lt_or_eq in Hd as [|]; [done|congruence].
Qed.

Lemma Qcdiv_nonneg x d : (0 ≤ x)%Qc → (0 ≤ d)%Qc → (0 ≤ x / d)%Qc.
Proof.
  intros Hx Hd. rewrite <-(Qcdiv_0_l d). unfold Qcdiv.
  apply Qcmult_le_compat_r; [done|]. by apply Qcinv_nonneg.
Qed.

Lemma Qcplus_nonneg x y : (0 ≤ x)%Qc → (0 ≤ y)%Qc → (0 ≤ x + y)%Qc.
Proof.
  intros Hx Hy. rewrite <-(Qcplus_0_l 0). by apply Qcplus_le_compat.
Qed.

Lemma guided_grads_shape convOutputs grads :
  shape (guided_grads convOutputs grads) = shape convOutputs.
Proof. done. Qed.

Lemma guided_grads_cells convOutputs grads n x :
  data (guided_grads convOutputs grads) !! n = Some x →
  ∃ a g, data convOutputs !! n = Some a ∧ data grads !! n = Some g ∧
         x = if bool_decide (0 < a ∧ 0 < g)%Qc then g else 0%Qc.
Proof.
  intros Hx.
  destruct (data convOutputs !! n) as [a|] eqn:Ha.
  2:{ unfold guided_grads, tf_mul, tf_cast_float, tf_greater0 in Hx. simpl in Hx.
      by rewrite !lookup_zip_with, !list_lookup_fmap, Ha in Hx. }
  destruct (data grads !! n) as [g|] eqn:Hg.
  2:{ unfold guided_grads, tf_mul, tf_cast_float, tf_greater0 in Hx. simpl in Hx.
      rewrite !lookup_zip_with, !list_lookup_fmap, Ha, Hg in Hx. done. }
  exists a, g. rewrite (guided_grads_lookup convOutputs grads n a g Ha Hg) in Hx.
  by injection Hx as <-.
Qed.

Lemma class_activation_map_inv convOutputs guidedGrads ws cam :
  class_activation_map convOutputs guidedGrads = OK (ws, cam) →
  ∃ conv0 guided0,
    getitem0 convOutputs = OK conv0 ∧ getitem0 guidedGrads = OK guided0 ∧
    tf_reduce_mean_01 guided0 = OK ws ∧
    tf_reduce_sum_last (tf_multiply_bcast ws conv0) = OK cam.
Proof.
  unfold class_activation_map.
  destruct (getitem0 convOutputs) as [conv0|]; [|done].
  destruct (getitem0 guidedGrads) as [guided0|]; [|done]. cbn [mbind Result_bind].
  destruct (tf_reduce_mean_01 guided0) as [ws'|] eqn:Hws; [|done].
  cbn [mbind Result_bind].
  destruct (tf_reduce_sum_last (tf_multiply_bcast ws' conv0)) as [cam'|] eqn:Hcam; [|done].
  cbn [mbind Result_bind mret Result_ret]. intros [= <- <-].
  by exists conv0, guided0.
Qed.

Lemma getitem0_Forall {A} (P : A → Prop) (t t0 : ndarray A) :
  Forall P (data t) → getitem0 t = OK t0 → Forall P (data t0).
Proof.
  intros Ht. unfold getitem0. destruct (shape t) as [|[|b] rest]; try done.
  intros [= <-]. by apply Forall_take.
Qed.

(** X6: the guided gradients are never negative, and neither are the
    channel weights averaged from them: a channel can be given no
    negative importance. *)
Theorem guided_gradients_and_weights_nonneg (convOutputs grads ws cam : ndarray Qc) :
  class_activation_map convOutputs (guided_grads convOutputs grads) = OK (ws, cam) →
  Forall (λ g, 0 ≤ g)%Qc (data (guided_grads convOutputs grads)) ∧
  Forall (λ w, 0 ≤ w)%Qc (data ws).
Proof.
  intros Hcam.
  assert (Forall (λ g, 0 ≤ g)%Qc (data (guided_grads convOutputs grads))) as Hguided.
  { apply Forall_lookup. intros n x (a & g & _ & _ & ->)%guided_grads_cells.
    case_bool_decide as Hpos; [|done]. destruct Hpos as [_ Hg]. by apply Qclt_le_weak. }
  split; [done|].
  apply class_activation_map_inv in Hcam as (conv0 & guided0 & _ & Hg0 & Hws & _).
  apply (Forall_tf_reduce_mean_01 (λ w, 0 ≤ w)%Qc) with (t := guided0); try done.
  - apply Qcplus_nonneg.
  - intros x n Hx. apply Qcdiv_nonneg; [done|apply Qc_of_nat_nonneg].
  - by eapply getitem0_Forall.
Qed.

Lemma Forall_tf_multiply_bcast_zero ws t :
  Forall (λ x, x = 0%Qc) (data ws) →
  Forall (λ x, x = 0%Qc) (data (tf_multiply_bcast ws t)).
Proof.
  intros Hws. unfold tf_multiply_bcast. cbn [data].
  apply Forall_join, Forall_fmap, Forall_true. intros row. simpl.
  generalize (data ws) Hws. clear. intros u Hu. revert row.
  induction Hu as [|x u -> _ IH]; intros [|y row]; simpl; try constructor.
  - apply Qcmult_0_l.
  - apply IH.
Qed.

(** X7: where no cell has both a positive activation and a positive
    gradient, nothing is highlighted: every guided gradient, every channel
    weight and every cell of the class activation map is 0. *)
Theorem no_positive_pair_gives_zero_map (convOutputs grads : ndarray Qc)
        (b h w c : nat) :
  shape convOutputs = [S b; h; w; c] →
  (∀ n a g, data convOutputs !! n = Some a → data grads !! n = Some g →
            ¬ (0 < a ∧ 0 < g)%Qc) →
  Forall (λ x, x = 0%Qc) (data (guided_grads convOutputs grads)) ∧
  ∃ ws cam,
    class_activation_map convOutputs (guided_grads convOutputs grads) = OK (ws, cam) ∧
    shape cam = [h; w] ∧
    Forall (λ x, x = 0%Qc) (data ws) ∧
    Forall (λ x, x = 0%Qc) (data cam).
Proof.
  intros Hshape Hnone.
  assert (Forall (λ x, x = 0%Qc) (data (guided_grads convOutputs grads))) as Hguided.
  { apply Forall_lookup. intros n x (a & g & Ha & Hg & ->)%guided_grads_cells.
    rewrite bool_decide_eq_false_2; [done|]. by apply (Hnone n). }
  split; [done|].
  destruct (class_activation_map_shape convOutputs (guided_grads convOutputs grads)
              b h w c Hshape (guided_grads_shape _ _)) as (ws & cam & Hcam & Hcshape).
  exists ws, cam. split; [done|]. split; [done|].
  apply class_activation_map_inv in Hcam as (conv0 & guided0 & _ & Hg0 & Hws & Hsum).
  assert (Forall (λ x, x = 0%Qc) (data ws)) as Hzero.
  { apply (Forall_tf_reduce_mean_01 (λ x, x = 0%Qc)) with (t := guided0); try done.
    - intros x y -> ->. apply Qcplus_0_l.
    - intros x n ->. apply Qcdiv_0_l.
    - by eapply getitem0_Forall. }
  split; [done|].
  apply (Forall_tf_reduce_sum_last (λ x, x = 0%Qc)) with (t := tf_multiply_bcast ws conv0);
    try done.
  - intros x y -> ->. apply Qcplus_0_l.
  - by apply Forall_tf_multiply_bcast_zero.
Qed.

(** X8: of a batch of several images only the first is used: the channel
    weights and the class activation map computed from the activations and
    gradients of a batch are those computed from its first entry alone. *)
Theorem only_first_batch_entry_used (convOutputs grads : ndarray Qc)
        (b : nat) (rest : list nat) :
  shape convOutputs = S b :: rest →
  let first t := NDArray (1 :: rest) (take (size_of rest) (data t)) in
  class_activation_map convOutputs (guided_grads convOutputs grads)
  = class_activation_map (first convOutputs)
                         (guided_grads (first convOutputs) (first grads)).
Proof.
  intros Hshape first. unfold class_activation_map.
  rewrite (getitem0_spec convOutputs b rest Hshape).
  rewrite (getitem0_spec (guided_grads convOutputs grads) b rest)
    by by rewrite guided_grads_shape.
  rewrite (getitem0_spec (first convOutputs) 0 rest) by done.
  rewrite (getitem0_spec (guided_grads (first convOutputs) (first grads)) 0 rest) by done.
  assert (take (size_of rest) (data (first convOutputs))
          = take (size_of rest) (data convOutputs)) as ->.
  { unfold first. cbn [data]. by rewrite take_take, Nat.min_id. }
  assert (take (size_of rest) (data (guided_grads (first convOutputs) (first grads)))
          = take (size_of rest) (data (guided_grads convOutputs grads))) as ->; [|done].
  unfold guided_grads, tf_mul, tf_cast_float, tf_greater0, first. cbn [data shape].
  rewrite !zip_with_take, <-!fmap_take. by rewrite !take_take, !Nat.min_id.
Qed.
(** ** The gradient model and the target layer *)

Lemma get_layer_split ls layer_name upto after :
  get_layer ls layer_name = OK (upto, after) →
  upto ++ after = ls ∧
  ∃ pre l, upto = pre ++ [l] ∧ name l = layer_name ∧ layer_name ∉ name <$> pre.
Proof.
  revert upto. induction ls as [|l ls IH]; intros upto; [done|].
  cbn [get_layer]. case_bool_decide as Hname.
  - intros [= <- <-]. split; [done|]. exists [], l. repeat split; [done|].
    apply not_elem_of_nil.
  - destruct (get_layer ls layer_name) as [[upto' after']|]; [|done].
    cbn [mbind Result_bind mret Result_ret]. intros [= <- <-].
    destruct (IH upto' eq_refl) as (Happ & pre & l' & -> & Hl' & Hpre).
    split; [by rewrite <-Happ|]. exists (l :: pre), l'. repeat split; [done|].
    cbn [fmap list_fmap]. by apply not_elem_of_cons.
Qed.

Lemma get_layer_missing ls layer_name :
  layer_name ∉ name <$> ls → get_layer ls layer_name = Raise (ValueError "No such layer").
Proof.
  induction ls as [|l ls IH]; [done|].
  cbn [fmap list_fmap]. intros [Hne Hrest]%not_elem_of_cons.
  cbn [get_layer]. rewrite bool_decide_eq_false_2 by done.
  by rewrite IH.
Qed.

Lemma get_layer_found ls layer_name :
  layer_name ∈ name <$> ls → is_OK (get_layer ls layer_name).
Proof.
  induction ls as [|l ls IH]; [by intros ?%elem_of_nil|].
  cbn [fmap list_fmap get_layer]. intros Hin. case_bool_decide as Hname.
  - by eexists.
  - apply elem_of_cons in Hin as [Heq|Hin]; [done|].
    destruct (IH Hin) as [[upto after] ->]. by eexists.
Qed.

Lemma run_layers_app st ls1 ls2 x :
  run_layers st (ls1 ++ ls2) x = run_layers st ls2 (run_layers st ls1 x).
Proof. unfold run_layers. apply foldl_app. Qed.

(** X9: the two outputs of the gradient model of line 56 belong together:
    a target layer that is found is the first layer of that name, the
    activations are the classifier run up to it, and the scores that are
    sliced and differentiated are the output of the whole classifier on the
    image; so an index that this output refuses makes [compute_heatmap]
    fail with the same error. *)
Theorem gradient_model_outputs (self : GradCAM) (st : Store) (upto after : list Layer) :
  get_layer (layers (self_model self)) (self_target_layer_name self) = OK (upto, after) →
  upto ++ after = layers (self_model self) ∧
  (∃ pre l, upto = pre ++ [l] ∧ name l = self_target_layer_name self ∧
            self_target_layer_name self ∉ name <$> pre) ∧
  (∀ image, run_layers st after (run_layers st upto image)
            = predict st (self_model self) image) ∧
  (∀ image classIdx eps e,
     getitem_col (predict st (self_model self) image) classIdx = Raise e →
     compute_heatmap self image classIdx eps st = Raise e).
Proof.
  intros Hlayer. pose proof (get_layer_split _ _ _ _ Hlayer) as [Happ Hpre].
  assert (∀ image, run_layers st after (run_layers st upto image)
                   = predict st (self_model self) image) as Hrun.
  { intros image. unfold predict. by rewrite <-Happ, run_layers_app. }
  repeat split; try done.
  intros image classIdx eps e Hslice. unfold compute_heatmap.
  run_store. run_lift Hlayer. apply bind_Raise. unfold lift. by rewrite Hrun, Hslice.
Qed.

(** X10: an explicit layer name is stored as it is given: the construction
    checks neither that a layer has this name nor its output, and ignores
    [target_layer_min_shape]; a name that no layer of the kept classifier
    has makes every later call of [compute_heatmap] fail with the
    [ValueError] of [get_layer]. *)
Theorem explicit_layer_name_is_not_checked (model : Model) (given : string)
        (target_layer_min_shape : Z) (st : Store) (kept : Model) (st' : Store) :
  linearize model st = OK (kept, st') →
  let self := {| self_model := kept; self_target_layer_name := given |} in
  __init__ model (Some given) target_layer_min_shape st = OK (self, st') ∧
  (given ∉ name <$> layers kept →
   ∀ image classIdx eps st2,
     ∃ msg, compute_heatmap self image classIdx eps st2 = Raise (ValueError msg)).
Proof.
  intros Hlin self. split.
  - unfold __init__. by run Hlin.
  - intros Hmissing image classIdx eps st2. eexists. unfold compute_heatmap.
    run_store. apply bind_Raise. unfold lift. cbn [self self_model self_target_layer_name].
    by rewrite get_layer_missing.
Qed.

(** ** Construction: edge cases *)

Lemma py_index_short {A} (l : list A) (i : Z) :
  (Z.of_nat (length l) < - i)%Z → py_index l i = Raise IndexError.
Proof.
  intros Hlen. unfold py_index.
  assert ((i <? 0)%Z = true) as -> by (apply Z.ltb_lt; lia).
  assert ((i + Z.of_nat (length l) <? 0)%Z = true) as -> by (apply Z.ltb_lt; lia).
  done.
Qed.

(** X12: a classifier needs two layers for its final stage to be replaced:
    with no layer, and with a single layer that is a softmax Dense stage,
    the construction fails with [IndexError], at [model.layers[-1]] and at
    [model.layers[-2]]. *)
Theorem init_too_few_layers (model : Model) (target_layer_name : option string)
        (target_layer_min_shape : Z) (st : Store) :
  length (layers model) ≤ 1 →
  (∀ final, last (layers model) = Some final →
            get_config final !! "activation" = Some (CStr "softmax") ∧
            is_OK (Dense_new (linear_config final))) →
  __init__ model target_layer_name target_layer_min_shape st = Raise IndexError.
Proof.
  intros Hlen Hfinal. unfold __init__. apply bind_Raise.
  destruct (layers model) as [|final [|l ls]] eqn:Hlayers; [| |simpl in Hlen; lia].
  - unfold linearize. apply bind_Raise. by rewrite Hlayers.
  - destruct (Hfinal final eq_refl) as [Hact [args Hargs]].
    rewrite (linearize_softmax model st final) by (by rewrite ?Hlayers).
    rewrite Hargs, Hlayers. by rewrite py_index_short.
Qed.

(** X13: the new final stage is always named ['new_layer']: when another
    layer of the classifier, before the final one, has this name already,
    the construction of a softmax classifier fails with the [ValueError]
    of [Model] for layer names that are not unique. *)
Theorem new_layer_name_clash (model : Model) (target_layer_name : option string)
        (target_layer_min_shape : Z) (st : Store)
        (earlier : list Layer) (prev final : Layer) (units d : Z)
        (rest : list (option Z)) :
  layers model = earlier ++ [prev; final] →
  get_config final !! "activation" = Some (CStr "softmax") →
  dom (get_config final) ⊆ list_to_set dense_kwargs →
  get_config final !! "units" = Some (CInt units) →
  (0 ≤ units)%Z →
  reverse (output_shape prev) = Some d :: rest →
  rest ≠ [] →
  "new_layer" ∈ name <$> earlier ++ [prev] →
  ∃ msg, __init__ model target_layer_name target_layer_min_shape st
         = Raise (ValueError msg).
Proof.
  intros Hlayers Hact Hkw Hunits Hpos Hrev Hrest Hclash.
  assert (last (layers model) = Some final) as Hlast.
  { rewrite Hlayers. change [prev; final] with ([prev] ++ [final]).
    by rewrite app_assoc, last_snoc. }
  assert (removelast (layers model) = earlier ++ [prev]) as Hinit.
  { rewrite Hlayers. change [prev; final] with ([prev] ++ [final]).
    by rewrite app_assoc, removelast_last. }
  pose proof (Dense_new_linear_config final units Hkw Hunits Hpos) as Hargs.
  set (args := {| dense_name := "new_layer"; dense_units := Z.to_nat units;
                  dense_use_bias := _; dense_config := _ |}) in Hargs.
  destruct (Dense_call_run args prev st d rest Hrev Hrest) as (nl & st1 & Hcall).
  pose proof (Dense_call_spec _ _ _ _ _ Hcall) as (Hn & _).
  eexists. unfold __init__. apply bind_Raise.
  rewrite (linearize_softmax model st final Hlast Hact), Hargs.
  rewrite Hlayers at 1. rewrite py_index_penultimate, Hcall.
  unfold Model_new. rewrite bool_decide_eq_false_2; [done|].
  rewrite Hinit, fmap_app. cbn [fmap list_fmap]. rewrite Hn. cbn [dense_name args].
  intros [_ [Hdisj _]]%NoDup_app. apply (Hdisj "new_layer" Hclash). by left.
Qed.

(** X14: a final stage whose activation entry is anything but the string
    ['softmax'] (sigmoid, linear, a callable that is not serialised to
    this name) leaves the classifier as it is: every construction that
    returns keeps the classifier it was given and creates no variable; with
    an explicit layer name the construction returns, and with none it
    returns the layer the scan finds in the classifier given. *)
Theorem other_activation_keeps_model (model : Model) (st : Store) (final : Layer)
        (activation : cfg_value) :
  last (layers model) = Some final →
  get_config final !! "activation" = Some activation →
  activation ≠ CStr "softmax" →
  (∀ target_layer_name target_layer_min_shape g st',
     __init__ model target_layer_name target_layer_min_shape st = OK (g, st') →
     self_model g = model ∧ st' = st) ∧
  (∀ given target_layer_min_shape,
     __init__ model (Some given) target_layer_min_shape st
     = OK ({| self_model := model; self_target_layer_name := given |}, st)) ∧
  (∀ target_layer_min_shape found,
     find_target_layer (reverse (layers model)) target_layer_min_shape = OK found →
     __init__ model None target_layer_min_shape st
     = OK ({| self_model := model; self_target_layer_name := found |}, st)).
Proof.
  intros Hlast Hcfg Hact.
  pose proof (linearize_other model st final activation Hlast Hcfg Hact) as Hlin.
  split; [|split].
  - intros tn k g st' [Hlin' _]%init_inv. rewrite Hlin in Hlin'.
    by injection Hlin' as <- <-.
  - intros given k. unfold __init__. by run Hlin.
  - intros k found Hfound. unfold __init__. run Hlin. by run_lift Hfound.
Qed.

(** X22: the replacement of a softmax final stage is always a [Dense]
    layer built from the configuration of that stage: when this
    configuration has an entry [Dense] does not accept, or no [units], as
    that of an [Activation] or of a convolution layer has, the
    construction fails with [TypeError]. *)
Theorem softmax_stage_must_be_dense (model : Model) (target_layer_name : option string)
        (target_layer_min_shape : Z) (st : Store) (final : Layer) :
  last (layers model) = Some final →
  get_config final !! "activation" = Some (CStr "softmax") →
  ¬ (dom (get_config final) ⊆ list_to_set dense_kwargs) ∨
  get_config final !! "units" = None →
  __init__ model target_layer_name target_layer_min_shape st = Raise TypeError.
Proof.
  intros Hlast Hact Hbad. unfold __init__. apply bind_Raise.
  rewrite (linearize_softmax model st final Hlast Hact).
  assert (Dense_new (linear_config final) = Raise TypeError) as ->; [|done].
  unfold Dense_new. case_bool_decide as Hdom; [|done].
  destruct Hbad as [Hkeys|Hunits].
  - exfalso. apply Hkeys. intros key Hkey. apply Hdom.
    unfold linear_config. rewrite !dom_insert, !elem_of_union. by do 2 right.
  - unfold linear_config. rewrite !lookup_insert_ne by done. by rewrite Hunits.
Qed.

(** X15: construction is idempotent: building a [GradCAM] again from the
    classifier an object keeps, with the same arguments, returns the same
    classifier and the same target layer, and creates no variable. *)
Theorem construction_is_idempotent (model : Model) (target_layer_name : option string)
        (target_layer_min_shape : Z) (st : Store) (g : GradCAM) (st' : Store) :
  __init__ model target_layer_name target_layer_min_shape st = OK (g, st') →
  __init__ (self_model g) target_layer_name target_layer_min_shape st' = OK (g, st').
Proof.
  intros [Hlin Hname]%init_inv.
  assert (linearize (self_model g) st' = OK (self_model g, st')) as Hkept.
  { pose proof Hlin as (final & act & Hlast & Hcfg & H)%linearize_inv.
    destruct H as [(Hne & Hm & _)|(-> & _)].
    - rewrite Hm. by apply (linearize_other model st' final act).
    - destruct (linearize_copies model st (self_model g) st' final Hlin Hlast Hcfg)
        as (new_final & Hm & _ & Hconf & _).
      apply (linearize_other _ st' new_final (CStr "linear")); [|done..].
      rewrite Hm. cbn [layers]. by rewrite last_snoc. }
  unfold __init__. run Hkept. destruct g as [kept found]. cbn [self_model] in *.
  destruct target_layer_name as [given|].
  - cbn [self_target_layer_name] in Hname. by rewrite Hname.
  - cbn [self_target_layer_name] in Hname. by run_lift Hname.
Qed.

Lemma qualifies_le k1 k2 l : (k1 ≤ k2)%Z → qualifies k2 l = true → qualifies k1 l = true.
Proof.
  intros Hk. unfold qualifies. intros [Hlen Hd]%andb_prop. rewrite Hlen. cbn [andb].
  destruct (output_shape l !! 1) as [[d|]|]; try done.
  apply Z.leb_le in Hd. apply Z.leb_le. lia.
Qed.

(** X16: raising [target_layer_min_shape] never selects a deeper layer: of
    two constructions with no explicit name on one classifier, the one
    with the larger minimum selects a layer at the same place or earlier
    in the classifier. *)
Theorem larger_minimum_selects_earlier_layer (model : Model) (k1 k2 : Z) (st : Store)
        (g1 g2 : GradCAM) (st1 st2 : Store) :
  (k1 ≤ k2)%Z →
  __init__ model None k1 st = OK (g1, st1) →
  __init__ model None k2 st = OK (g2, st2) →
  self_model g2 = self_model g1 ∧
  ∃ i1 i2 l1 l2,
    layers (self_model g1) !! i1 = Some l1 ∧ name l1 = self_target_layer_name g1 ∧
    qualifies k1 l1 = true ∧
    layers (self_model g1) !! i2 = Some l2 ∧ name l2 = self_target_layer_name g2 ∧
    qualifies k2 l2 = true ∧
    i2 ≤ i1.
Proof.
  intros Hk [Hlin1 Hfind1]%init_inv [Hlin2 Hfind2]%init_inv.
  rewrite Hlin1 in Hlin2. injection Hlin2 as Hsame _. split; [done|].
  rewrite <-Hsame in Hfind2. clear Hsame Hlin1.
  apply find_target_layer_inv in Hfind1 as (pre1 & l1 & post1 & Hrev1 & Hpre1 & Hl1 & Hn1).
  apply find_target_layer_inv in Hfind2 as (pre2 & l2 & post2 & Hrev2 & Hpre2 & Hl2 & Hn2).
  assert (length pre1 ≤ length pre2) as Hlen.
  { destruct (decide (length pre1 ≤ length pre2)) as [|Hgt]; [done|exfalso].
    assert ((pre1 ++ l1 :: post1) !! length pre2 = Some l2) as Hl.
    { rewrite <-Hrev1, Hrev2. by apply list_lookup_middle. }
    rewrite lookup_app_l in Hl by lia.
    rewrite Forall_forall in Hpre1.
    destruct (Hpre1 l2 (list_elem_of_lookup_2 _ _ _ Hl)) as [Hq _].
    by rewrite (qualifies_le k1 k2 l2 Hk Hl2) in Hq. }
  assert (∀ pre l post, reverse (layers (self_model g1)) = pre ++ l :: post →
            layers (self_model g1) !! length post = Some l) as Hat.
  { intros pre l post Hrev.
    rewrite <-(reverse_involutive (layers (self_model g1))), Hrev.
    rewrite reverse_app, reverse_cons, <-app_assoc, <-(length_reverse post).
    by apply list_lookup_middle. }
  exists (length post1), (length post2), l1, l2.
  repeat split; try done; [by eapply Hat..|].
  apply (f_equal length) in Hrev1, Hrev2.
  rewrite Hrev1, !length_app in Hrev2. simpl in Hrev2. lia.
Qed.

(** X17: a target layer selected by the scan is always found again: after a
    construction with no explicit name, [get_layer] returns a layer of the
    selected name in the classifier kept, so [compute_heatmap] does not
    fail for a missing layer; when the layer names are unique, as Keras
    has them, this layer has a rank-4 output of the requested size. *)
Theorem selected_layer_is_found (model : Model) (target_layer_min_shape : Z)
        (st : Store) (g : GradCAM) (st' : Store) :
  __init__ model None target_layer_min_shape st = OK (g, st') →
  ∃ pre l after,
    get_layer (layers (self_model g)) (self_target_layer_name g) = OK (pre ++ [l], after) ∧
    layers (self_model g) = pre ++ l :: after ∧
    name l = self_target_layer_name g ∧
    (NoDup (name <$> layers (self_model g)) → qualifies target_layer_min_shape l = true).
Proof.
  intros [_ Hfind]%init_inv.
  apply find_target_layer_inv in Hfind as (rpre & t & rpost & Hrev & _ & Ht & Hname).
  assert (t ∈ layers (self_model g)) as Hin.
  { apply elem_of_reverse. rewrite Hrev. apply elem_of_app. right. by left. }
  destruct (get_layer_found (layers (self_model g)) (self_target_layer_name g))
    as [[upto after] Hlayer].
  { rewrite Hname. by apply list_elem_of_fmap_2. }
  destruct (get_layer_split _ _ _ _ Hlayer) as (Happ & pre & l & -> & Hl & Hpre).
  exists pre, l, after. split; [done|]. split; [by rewrite <-Happ, <-app_assoc|].
  split; [done|]. intros Hnd.
  assert (l = t) as ->; [|done].
  rewrite <-Happ, <-app_assoc in Hin, Hnd. cbn [app] in Hin, Hnd.
  apply elem_of_app in Hin as [Hin|Hin].
  { exfalso. apply Hpre. rewrite Hname. by apply list_elem_of_fmap_2. }
  apply elem_of_cons in Hin as [->|Hin]; [done|exfalso].
  rewrite fmap_app in Hnd. apply NoDup_app in Hnd as (_ & _ & Hnd).
  cbn [fmap list_fmap] in Hnd. apply NoDup_cons in Hnd as [Hnot _].
  apply Hnot. rewrite Hl, Hname. by apply list_elem_of_fmap_2.
Qed.
(** ** The overlay: sizes and range *)


Lemma cv2_applyColorMap_inv heatmap colormap colored :
  cv2_applyColorMap heatmap colormap = OK colored →
  shape colored = shape heatmap ++ [3] ∧ Forall is_uint8 (data colored).
Proof.
  unfold cv2_applyColorMap. destruct (shape heatmap) as [|H [|W [|]]] eqn:Hs; try done.
  intros [= <-]. split; [done|].
  cbn [data]. apply Forall_join, Forall_fmap, Forall_true. intros v. simpl.
  destruct (palette colormap v) as [[b g] r].
  repeat (apply Forall_cons_2; [apply mod_256_uint8|]). apply Forall_nil_2.
Qed.

(** X18: the image must have the height and the width of the heatmap:
    for a heatmap of height [H] and width [W], an image of three channels
    of another height or width makes [overlay_heatmap] fail with the error
    of [cv2.addWeighted]. *)
Theorem overlay_size_mismatch_refused (self : GradCAM) (heatmap image : ndarray Z)
        (alpha : Qc) (colormap : Z) (st : Store) (H W H' W' : nat) :
  shape heatmap = [H; W] →
  shape image = [H'; W'; 3] →
  (H', W') ≠ (H, W) →
  overlay_heatmap self heatmap image alpha colormap st = Raise cv2_error.
Proof.
  intros Hshape Hishape Hne. unfold overlay_heatmap.
  assert (∃ colored, cv2_applyColorMap heatmap colormap = OK colored) as [colored Hcol].
  { unfold cv2_applyColorMap. rewrite Hshape. eauto. }
  run_lift Hcol. apply bind_Raise. unfold lift, cv2_addWeighted.
  apply cv2_applyColorMap_inv in Hcol as [Hcshape _].
  rewrite bool_decide_eq_false_2; [done|]. rewrite Hcshape, Hshape, Hishape.
  intros [= -> ->]. done.
Qed.

(** ** The reverse scan: unknown extents, and what is compared *)

(** X20: the scan cannot pass a rank-4 layer whose dimension 1 is unknown:
    when the deepest rank-4 layer that is not passed over has [None] there,
    as in a classifier for images of any size, the construction with no
    explicit name fails with the [TypeError] of the comparison on line 40,
    whatever the layers before it are. *)
Theorem scan_stops_at_unknown_extent (model : Model) (target_layer_min_shape : Z)
        (st : Store) (kept : Model) (st1 : Store)
        (before : list Layer) (l : Layer) (after : list Layer) :
  linearize model st = OK (kept, st1) →
  layers kept = before ++ l :: after →
  unknown_extent l = true →
  Forall (passed_over target_layer_min_shape) after →
  __init__ model None target_layer_min_shape st = Raise TypeError.
Proof.
  intros Hlin Hlayers Hl Hafter. unfold __init__. run Hlin.
  apply bind_Raise. unfold lift.
  rewrite Hlayers, reverse_app, reverse_cons, <-app_assoc. cbn [app].
  rewrite find_target_layer_unknown; [done| |done]. by apply Forall_reverse.
Qed.

(** X21: of the output shape of a layer the scan reads the rank and
    dimension 1 only: two lists of layers that agree on the names, the
    ranks and dimension 1 give the same outcome, so the width (dimension
    2) of a layer plays no part in its selection. *)
Theorem selection_ignores_width (ls1 ls2 : list Layer) (target_layer_min_shape : Z) :
  Forall2 (λ l1 l2, name l1 = name l2 ∧
                    length (output_shape l1) = length (output_shape l2) ∧
                    output_shape l1 !! 1 = output_shape l2 !! 1) ls1 ls2 →
  find_target_layer ls1 target_layer_min_shape
  = find_target_layer ls2 target_layer_min_shape.
Proof.
  induction 1 as [|l1 l2 ls1 ls2 (Hname & Hlen & Hdim) _ IH]; [done|].
  cbn [find_target_layer]. by rewrite Hname, Hlen, Hdim, IH.
Qed.
(** ** The scores that are differentiated *)

Lemma linearize_predict_logits model st earlier prev final units d rest :
  layers model = earlier ++ [prev; final] →
  get_config final !! "activation" = Some (CStr "softmax") →
  dom (get_config final) ⊆ list_to_set dense_kwargs →
  get_config final !! "units" = Some (CInt units) →
  (0 ≤ units)%Z →
  reverse (output_shape prev) = Some d :: rest →
  rest ≠ [] →
  NoDup (name <$> earlier ++ [prev]) →
  "new_layer" ∉ name <$> earlier ++ [prev] →
  shape <$> read_weights st final
  = dense_shapes (get_config final) (Z.to_nat d) (Z.to_nat units) →
  (∀ l v, l ∈ earlier ++ [prev] → v ∈ weights l → v ∈ dom st) →
  ∃ kept st',
    linearize model st = OK (kept, st') ∧
    ∀ x, predict st' kept x = logits st model x.
Proof.
  intros Hlayers Hact Hkw Hunits Hpos Hrev Hrest Hnd Hnew Hshapes Hdom.
  assert (last (layers model) = Some final) as Hlast.
  { rewrite Hlayers. change [prev; final] with ([prev] ++ [final]).
    by rewrite app_assoc, last_snoc. }
  assert (removelast (layers model) = earlier ++ [prev]) as Hinit.
  { rewrite Hlayers. change [prev; final] with ([prev] ++ [final]).
    by rewrite app_assoc, removelast_last. }
  pose proof (Dense_new_linear_config final units Hkw Hunits Hpos) as Hargs.
  set (args := {| dense_name := "new_layer"; dense_units := Z.to_nat units;
                  dense_use_bias := _; dense_config := _ |}) in Hargs.
  destruct (Dense_call_run args prev st d rest Hrev Hrest) as (nl & st1 & Hcall).
  pose proof (Dense_call_spec _ _ _ _ _ Hcall)
    as (Hn & Hk & Hconf & _ & Hlen & Hndw & Hfresh & Hframe1 & (d' & Hd' & Hsh)).
  assert (d' = d) as -> by (rewrite Hrev in Hd'; by injection Hd').
  assert (shape <$> read_weights st1 nl = shape <$> read_weights st final) as Hsame.
  { rewrite Hsh, Hshapes, Hlen. unfold dense_shapes, args. cbn [dense_use_bias dense_units].
    by destruct (get_config final !! "use_bias") as [[|[]| | | |]|]. }
  destruct (set_weights_total nl (read_weights st final) st1) as (st' & Hset).
  { apply (f_equal length) in Hsame. rewrite !length_fmap in Hsame.
    unfold read_weights in Hsame at 1. rewrite length_fmap in Hsame. done. }
  { done. }
  pose proof (set_weights_spec _ _ _ _ Hset) as (_ & _ & _ & Hframe2 & Hread).
  specialize (Hread Hndw).
  exists {| layers := removelast (layers model) ++ [nl] |}, st'. split.
  - rewrite (linearize_softmax model st final Hlast Hact), Hargs.
    rewrite Hlayers at 1. rewrite py_index_penultimate, Hcall.
    unfold Model_new. rewrite bool_decide_eq_true_2, Hset; [done|].
    rewrite Hinit, fmap_app. cbn [fmap list_fmap]. rewrite Hn. cbn [dense_name args].
    apply NoDup_app. repeat split; [done| |apply NoDup_singleton].
    intros x Hx ->%list_elem_of_singleton. done.
  - intros x. unfold predict, logits. cbn [layers].
    rewrite run_layers_snoc, Hlast, Hinit.
    rewrite (run_layers_frame st st').
    2:{ intros l Hl. apply read_weights_frame; [|intros v Hv; by apply (Hdom l v)].
        intros v Hv. rewrite Hframe2 by (intros Hin; by apply Hfresh in Hin).
        by apply Hframe1. }
    unfold layer_call. rewrite Hk. unfold dense_call.
    rewrite Hconf, lookup_insert_eq, Hread. done.
Qed.

(** X23: on an object constructed from a softmax classifier, the scores
    that [compute_heatmap] slices and differentiates are the logits of the
    original classifier, not its probabilities: for every image and class
    index the loss of line 66 is the slice of the pre-softmax output of the
    classifier given to the constructor, whatever the target layer is. *)
Theorem heatmap_scores_are_logits (model : Model) (st : Store)
        (earlier : list Layer) (prev final : Layer) (units d : Z)
        (rest : list (option Z))
        (target_layer_name : option string) (target_layer_min_shape : Z)
        (g : GradCAM) (st' : Store) (upto after : list Layer) :
  layers model = earlier ++ [prev; final] →
  get_config final !! "activation" = Some (CStr "softmax") →
  dom (get_config final) ⊆ list_to_set dense_kwargs →
  get_config final !! "units" = Some (CInt units) →
  (0 ≤ units)%Z →
  reverse (output_shape prev) = Some d :: rest →
  rest ≠ [] →
  NoDup (name <$> earlier ++ [prev]) →
  "new_layer" ∉ name <$> earlier ++ [prev] →
  shape <$> read_weights st final
  = dense_shapes (get_config final) (Z.to_nat d) (Z.to_nat units) →
  (∀ l v, l ∈ earlier ++ [prev] → v ∈ weights l → v ∈ dom st) →
  __init__ model target_layer_name target_layer_min_shape st = OK (g, st') →
  get_layer (layers (self_model g)) (self_target_layer_name g) = OK (upto, after) →
  ∀ image classIdx,
    getitem_col (run_layers st' after (run_layers st' upto image)) classIdx
    = getitem_col (logits st model image) classIdx.
Proof.
  intros Hlayers Hact Hkw Hunits Hpos Hrev Hrest Hnd Hnew Hshapes Hdom
         [Hlin _]%init_inv Hlayer image classIdx.
  destruct (linearize_predict_logits model st earlier prev final units d rest)
    as (kept & st2 & Hlin2 & Hlogits); try done.
  rewrite Hlin in Hlin2. injection Hlin2 as <- <-.
  rewrite <-Hlogits. unfold predict.
  destruct (get_layer_split _ _ _ _ Hlayer) as [<- _]. by rewrite run_layers_app.
Qed.

End GradCAM_model.

(** * The sample classifier

    The theorems above, applied to the classifier, store, image and backend
    of the examples, and the outcomes of the source on inputs where the
    specification and the code part ways. *)

#[local] Existing Instance sample_backend.

(** What construction returns on the sample classifier, by evaluation: the
    later of its two rank-4 stages for a minimum of 1, the earlier one for
    a minimum of 3, and the error of line 45 for a minimum of 5. *)
Example sample_construction :
  __init__ sample_model None 1 sample_store = OK (sample_gradcam, sample_store_after).
Proof. vm_compute. reflexivity. Qed.

Example sample_construction_min_3 :
  __init__ sample_model None 3 sample_store
  = OK ({| self_model := sample_kept; self_target_layer_name := "conv" |},
        sample_store_after).
Proof. vm_compute. reflexivity. Qed.

Example sample_construction_min_5 :
  __init__ sample_model None 5 sample_store
  = Raise (ValueError "Could not find 4D layer. Cannot apply GradCAM.").
Proof. vm_compute. reflexivity. Qed.

(** The scores of the kept classifier on the sample image are the logits
    [[2; 7; 3]] of the original. *)
Example sample_scores :
  let scores := predict sample_store_after sample_kept sample_image in
  shape scores = [1; 3] ∧ this <$> data scores = [2 # 1; 7 # 1; 3 # 1] ∧
  this <$> data (logits sample_store sample_model sample_image) = [2 # 1; 7 # 1; 3 # 1].
Proof. repeat split; vm_compute; reflexivity. Qed.

(** C1 on activations and gradients of shape [[1; 2; 2; 2]]. *)
Lemma guided_weights_cam_correct_witness :
  let guidedGrads := guided_grads sample_convOutputs sample_grads in
  (shape guidedGrads = shape sample_grads ∧
   ∀ n a g, data sample_convOutputs !! n = Some a → data sample_grads !! n = Some g →
     data guidedGrads !! n = Some (if bool_decide (0 < a ∧ 0 < g)%Qc then g else 0%Qc)) ∧
  ∃ conv0 guided0 ws cam,
    getitem0 sample_convOutputs = OK conv0 ∧
    getitem0 guidedGrads = OK guided0 ∧
    class_activation_map sample_convOutputs guidedGrads = OK (ws, cam) ∧
    shape ws = [2] ∧
    (∀ k, k < 2 →
       data ws !! k
       = Some (sum_below 2 (λ i, sum_below 2 (λ j, getitem3 guided0 i j k))
               / Qc_of_nat (2 * 2))%Qc) ∧
    shape cam = [2; 2] ∧
    (∀ i j, i < 2 → j < 2 →
       data cam !! (i * 2 + j)
       = Some (sum_below 2 (λ k, (nth k (data ws) 0 * getitem3 conv0 i j k)%Qc))).
Proof.
  apply (guided_weights_cam_correct sample_convOutputs sample_grads 0 2 2 2);
    reflexivity.
Defined.




(** C4 on a map that is 5 everywhere, with the default [eps]. *)
Lemma constant_map_gives_zero_heatmap_witness :
  heatmap_denom flat_map_5 default_eps = OK default_eps ∧
  default_eps ≠ 0%Qc ∧
  heatmap_ratio flat_map_5 default_eps
  = OK (NDArray [2; 2] (replicate 4 (Finite 0%Qc))) ∧
  normalize_heatmap flat_map_5 default_eps = OK (NDArray [2; 2] [0; 0; 0; 0]%Z).
Proof.
  apply (constant_map_gives_zero_heatmap flat_map_5 default_eps (qc 5)).
  - reflexivity.
  - reflexivity.
  - reflexivity.
Defined.

(** C5 on the sample classifier, whose stages [conv] and [pool] both
    qualify for a minimum of 1: [pool], the later one, is selected. *)
Lemma target_layer_is_deepest_witness :
  (∃ i l,
     layers (self_model sample_gradcam) !! i = Some l ∧
     qualifies 1 l = true ∧
     self_target_layer_name sample_gradcam = name l ∧
     ∀ j lj, layers (self_model sample_gradcam) !! j = Some lj →
             qualifies 1 lj = true → j ≤ i) ∧
  (∀ st2 g2 st2',
     __init__ sample_model None 1 st2 = OK (g2, st2') →
     self_target_layer_name g2 = self_target_layer_name sample_gradcam) ∧
  (∃ g2 st2', __init__ sample_model None 1 sample_store_after = OK (g2, st2')).
Proof.
  apply (target_layer_is_deepest sample_model 1 sample_store sample_gradcam
           sample_store_after).
  vm_compute. reflexivity.
Defined.

(** C6 as stated fails both ways. A classifier for images of any size has
    no stage that qualifies, and its construction raises the [TypeError] of
    the comparison on line 40, not the error of line 45. A classifier that
    ends in [Activation('softmax')] has a stage that qualifies, and its
    construction does not succeed: line 25 raises [TypeError]. *)
Lemma scan_raises_other_errors :
  (Forall (λ l, qualifies 1 l = false) (layers any_size_model) ∧
   __init__ any_size_model None 1 any_size_store = Raise TypeError) ∧
  (qualifies 1 pool_layer = true ∧ pool_layer ∈ layers activation_model ∧
   __init__ activation_model None 1 sample_store = Raise TypeError).
Proof.
  split; split.
  - repeat constructor.
  - vm_compute. reflexivity.
  - reflexivity.
  - split; [do 2 right; left|]. vm_compute. reflexivity.
Qed.

(** C6, amended, on the sample classifier with a minimum of 3. *)
Lemma no_spatial_layer_found_witness :
  (Forall (passed_over 3) (layers sample_kept) →
   __init__ sample_model None 3 sample_store
   = Raise (ValueError "Could not find 4D layer. Cannot apply GradCAM.")) ∧
  (∀ before l after,
     layers sample_kept = before ++ l :: after →
     qualifies 3 l = true →
     Forall (λ l', unknown_extent l' = false) after →
     ∃ found,
       __init__ sample_model None 3 sample_store
       = OK ({| self_model := sample_kept; self_target_layer_name := found |},
             sample_store_after)).
Proof.
  apply (no_spatial_layer_found sample_model 3 sample_store sample_kept
           sample_store_after).
  vm_compute. reflexivity.
Defined.

(** C7 as stated fails at the class index -1, which is below 0: on the
    three classes of the sample classifier [compute_heatmap] raises
    nothing and returns the heatmap of class 2. *)
Lemma negative_class_index_accepted :
  (-1 < 0)%Z ∧
  (∃ heatmap,
     compute_heatmap sample_gradcam sample_image (-1) default_eps sample_store_after
     = OK (heatmap, sample_store_after)) ∧
  compute_heatmap sample_gradcam sample_image (-1) default_eps sample_store_after
  = compute_heatmap sample_gradcam sample_image 2 default_eps sample_store_after.
Proof.
  split; [lia|]. split; [eexists|]; vm_compute; reflexivity.
Qed.

(** C7, amended, on the sample classifier at the class index 3. *)
Lemma class_index_out_of_range_witness :
  ((3 ≤ 3 ∨ 3 < - 3)%Z →
   compute_heatmap sample_gradcam sample_image 3 default_eps sample_store_after
   = Raise InvalidArgumentError) ∧
  ((- 3 ≤ 3 < 0)%Z →
   is_OK (getitem_col
            (run_layers sample_store_after [flatten_layer; new_final_layer]
               (run_layers sample_store_after [input_layer; conv_layer; pool_layer]
                  sample_image))
            3) ∧
   getitem_col
     (run_layers sample_store_after [flatten_layer; new_final_layer]
        (run_layers sample_store_after [input_layer; conv_layer; pool_layer]
           sample_image)) 3
   = getitem_col
       (run_layers sample_store_after [flatten_layer; new_final_layer]
          (run_layers sample_store_after [input_layer; conv_layer; pool_layer]
             sample_image))
       (3 + 3)).
Proof.
  apply (class_index_out_of_range sample_gradcam sample_image 3 default_eps
           sample_store_after [input_layer; conv_layer; pool_layer]
           [flatten_layer; new_final_layer] 1 3 []).
  - reflexivity.
  - reflexivity.
Defined.


(** C9 on the construction of the sample classifier. *)
Lemma construction_and_queries_frame_witness :
  (∀ v, v ∈ dom sample_store → sample_store_after !! v = sample_store !! v) ∧
  (∀ l, l ∈ layers sample_model → Forall (λ v, v ∈ dom sample_store) (weights l) →
        read_weights sample_store_after l = read_weights sample_store l) ∧
  (∀ final,
     last (layers sample_model) = Some final →
     get_config final !! "activation" = Some (CStr "softmax") →
     ∃ new_final,
       last (layers (self_model sample_gradcam)) = Some new_final ∧
       (∀ v, v ∈ weights new_final → v ∉ dom sample_store) ∧
       read_weights sample_store_after new_final = read_weights sample_store final) ∧
  (∀ image classIdx eps heatmap st2,
     compute_heatmap sample_gradcam image classIdx eps sample_store_after
     = OK (heatmap, st2) → st2 = sample_store_after) ∧
  (∀ heatmap image alpha colormap r st2,
     overlay_heatmap sample_gradcam heatmap image alpha colormap sample_store_after
     = OK (r, st2) → st2 = sample_store_after).
Proof.
  apply (construction_and_queries_frame sample_model None 1 sample_store
           sample_gradcam sample_store_after).
  vm_compute. reflexivity.
Defined.

(** C10 on a classifier that ends in a flattening stage. *)
Lemma init_missing_activation_witness :
  __init__ headless_model None 1 sample_store = Raise (KeyError "activation").
Proof.
  apply (init_missing_activation headless_model None 1 sample_store flatten_layer).
  - reflexivity.
  - reflexivity.
Defined.

(** * The further properties on the sample classifier *)


Lemma positive_eps_quotients_finite_witness :
  ∃ denom ratio out,
    heatmap_denom ramp_map default_eps = OK denom ∧ (0 < denom)%Qc ∧
    heatmap_ratio ramp_map default_eps = OK ratio ∧
    Forall (λ r, ∃ q, r = Finite q ∧ (0 ≤ q)%Qc ∧ (q ≤ 1)%Qc) (data ratio) ∧
    normalize_heatmap ramp_map default_eps = OK out.
Proof.
  apply (positive_eps_quotients_finite ramp_map default_eps).
  - by vm_compute.
  - discriminate.
Defined.

Lemma normalize_heatmap_keeps_order_witness :
  let out := NDArray [2; 2] [0; 63; 127; 254]%Z in
  (∀ i j x y a b,
     data ramp_map !! i = Some x → data ramp_map !! j = Some y →
     data out !! i = Some a → data out !! j = Some b →
     (x ≤ y)%Qc → (a ≤ b)%Z) ∧
  (∀ i, data ramp_map !! i = Some (qc 1) → data out !! i = Some 0%Z) ∧
  0%Z ∈ data out.
Proof.
  apply (normalize_heatmap_keeps_order ramp_map default_eps
           (qc 5 - qc 1 + default_eps)%Qc (qc 1)).
  - by vm_compute.
  - reflexivity.
  - by vm_compute.
  - reflexivity.
  - vm_compute. reflexivity.
Defined.

Lemma zero_eps_uses_full_range_witness :
  ∃ out,
    normalize_heatmap ramp_map 0%Qc = OK out ∧
    (∀ i, data ramp_map !! i = Some (qc 1) → data out !! i = Some 0%Z) ∧
    (∀ i, data ramp_map !! i = Some (qc 5) → data out !! i = Some 255%Z) ∧
    0%Z ∈ data out ∧ 255%Z ∈ data out.
Proof.
  apply (zero_eps_uses_full_range ramp_map (qc 1) (qc 5)).
  - reflexivity.
  - reflexivity.
  - by vm_compute.
Defined.

Lemma zero_eps_constant_map_is_nan_witness :
  heatmap_denom flat_map_5 0%Qc = OK 0%Qc ∧
  heatmap_ratio flat_map_5 0%Qc = OK (NDArray [2; 2] [NaN; NaN; NaN; NaN]) ∧
  is_OK (normalize_heatmap flat_map_5 0%Qc).
Proof.
  apply (zero_eps_constant_map_is_nan flat_map_5 (qc 5)).
  - reflexivity.
  - reflexivity.
Defined.

Lemma guided_gradients_and_weights_nonneg_witness :
  ∃ ws cam,
    class_activation_map sample_convOutputs (guided_grads sample_convOutputs sample_grads)
    = OK (ws, cam) ∧
    Forall (λ g, 0 ≤ g)%Qc (data (guided_grads sample_convOutputs sample_grads)) ∧
    Forall (λ w, 0 ≤ w)%Qc (data ws).
Proof.
  eexists _, _. split; [reflexivity|].
  eapply (guided_gradients_and_weights_nonneg sample_convOutputs sample_grads).
  reflexivity.
Defined.

Lemma no_positive_pair_gives_zero_map_witness :
  Forall (λ x, x = 0%Qc) (data (guided_grads sample_convOutputs falling_grads)) ∧
  ∃ ws cam,
    class_activation_map sample_convOutputs (guided_grads sample_convOutputs falling_grads)
    = OK (ws, cam) ∧
    shape cam = [2; 2] ∧
    Forall (λ x, x = 0%Qc) (data ws) ∧
    Forall (λ x, x = 0%Qc) (data cam).
Proof.
  apply (no_positive_pair_gives_zero_map sample_convOutputs falling_grads 0 2 2 2).
  - reflexivity.
  - intros n a g _ Hg [_ Hpos].
    assert (Forall (λ g, ¬ (0 < g)%Qc) (data falling_grads)) as Hall
      by (repeat constructor; by vm_compute).
    rewrite Forall_lookup in Hall. by apply (Hall n g Hg).
Defined.

Lemma only_first_batch_entry_used_witness :
  let first t := NDArray [1; 2; 2; 2] (take (size_of [2; 2; 2]) (data t)) in
  class_activation_map batch_convOutputs (guided_grads batch_convOutputs batch_grads)
  = class_activation_map (first batch_convOutputs)
                         (guided_grads (first batch_convOutputs) (first batch_grads)).
Proof.
  apply (only_first_batch_entry_used batch_convOutputs batch_grads 1 [2; 2; 2]).
  reflexivity.
Defined.

Lemma gradient_model_outputs_witness :
  let upto := [input_layer; conv_layer; pool_layer] in
  let after := [flatten_layer; new_final_layer] in
  upto ++ after = layers (self_model sample_gradcam) ∧
  (∃ pre l, upto = pre ++ [l] ∧ name l = self_target_layer_name sample_gradcam ∧
            self_target_layer_name sample_gradcam ∉ name <$> pre) ∧
  (∀ image, run_layers sample_store_after after (run_layers sample_store_after upto image)
            = predict sample_store_after (self_model sample_gradcam) image) ∧
  (∀ image classIdx eps e,
     getitem_col (predict sample_store_after (self_model sample_gradcam) image) classIdx
     = Raise e →
     compute_heatmap sample_gradcam image classIdx eps sample_store_after = Raise e).
Proof.
  apply (gradient_model_outputs sample_gradcam sample_store_after
           [input_layer; conv_layer; pool_layer] [flatten_layer; new_final_layer]).
  reflexivity.
Defined.

Lemma explicit_layer_name_is_not_checked_witness :
  let self := {| self_model := sample_kept; self_target_layer_name := "no_such_layer" |} in
  __init__ sample_model (Some "no_such_layer") 1 sample_store = OK (self, sample_store_after) ∧
  ("no_such_layer" ∉ name <$> layers sample_kept →
   ∀ image classIdx eps st2,
     ∃ msg, compute_heatmap self image classIdx eps st2 = Raise (ValueError msg)).
Proof.
  apply (explicit_layer_name_is_not_checked sample_model "no_such_layer" 1 sample_store
           sample_kept sample_store_after).
  vm_compute. reflexivity.
Defined.


Lemma init_too_few_layers_witness :
  __init__ single_stage_model None 1 sample_store = Raise IndexError.
Proof.
  apply (init_too_few_layers single_stage_model None 1 sample_store).
  - simpl. lia.
  - intros final [= <-]. split; [reflexivity|]. eexists. vm_compute. reflexivity.
Defined.

Lemma new_layer_name_clash_witness :
  ∃ msg, __init__ clash_model None 1 sample_store = Raise (ValueError msg).
Proof.
  apply (new_layer_name_clash clash_model None 1 sample_store
           [input_layer; conv_layer; pool_layer] renamed_flatten_layer softmax_layer
           3 4 [None]).
  - reflexivity.
  - reflexivity.
  - compute_done.
  - vm_compute. reflexivity.
  - lia.
  - reflexivity.
  - discriminate.
  - compute_done.
Defined.

(** A classifier for images of any size, whose final stage is linear. *)
Lemma other_activation_keeps_model_witness :
  (∀ target_layer_name target_layer_min_shape g st',
     __init__ any_size_model target_layer_name target_layer_min_shape any_size_store
     = OK (g, st') →
     self_model g = any_size_model ∧ st' = any_size_store) ∧
  (∀ given target_layer_min_shape,
     __init__ any_size_model (Some given) target_layer_min_shape any_size_store
     = OK ({| self_model := any_size_model; self_target_layer_name := given |},
           any_size_store)) ∧
  (∀ target_layer_min_shape found,
     find_target_layer (reverse (layers any_size_model)) target_layer_min_shape = OK found →
     __init__ any_size_model None target_layer_min_shape any_size_store
     = OK ({| self_model := any_size_model; self_target_layer_name := found |},
           any_size_store)).
Proof.
  apply (other_activation_keeps_model any_size_model any_size_store any_size_scores
           (CStr "linear")).
  - reflexivity.
  - reflexivity.
  - discriminate.
Defined.

(** The classifier that ends in [Activation('softmax')], whose
    configuration has no [units]. *)
Lemma softmax_stage_must_be_dense_witness :
  __init__ activation_model None 1 sample_store = Raise TypeError.
Proof.
  apply (softmax_stage_must_be_dense activation_model None 1 sample_store
           activation_layer).
  - reflexivity.
  - reflexivity.
  - right. reflexivity.
Defined.

Lemma construction_is_idempotent_witness :
  __init__ (self_model sample_gradcam) None 1 sample_store_after
  = OK (sample_gradcam, sample_store_after).
Proof.
  apply (construction_is_idempotent sample_model None 1 sample_store).
  vm_compute. reflexivity.
Defined.

(** On the sample classifier a minimum of 1 selects [pool], at place 2, and
    a minimum of 3 selects [conv], at place 1. *)
Lemma larger_minimum_selects_earlier_layer_witness :
  let g1 := sample_gradcam in
  let g2 := {| self_model := sample_kept; self_target_layer_name := "conv" |} in
  self_model g2 = self_model g1 ∧
  ∃ i1 i2 l1 l2,
    layers (self_model g1) !! i1 = Some l1 ∧ name l1 = self_target_layer_name g1 ∧
    qualifies 1 l1 = true ∧
    layers (self_model g1) !! i2 = Some l2 ∧ name l2 = self_target_layer_name g2 ∧
    qualifies 3 l2 = true ∧
    i2 ≤ i1.
Proof.
  apply (larger_minimum_selects_earlier_layer sample_model 1 3 sample_store
           sample_gradcam {| self_model := sample_kept; self_target_layer_name := "conv" |}
           sample_store_after sample_store_after).
  - lia.
  - vm_compute. reflexivity.
  - vm_compute. reflexivity.
Defined.

Lemma selected_layer_is_found_witness :
  ∃ pre l after,
    get_layer (layers (self_model sample_gradcam)) (self_target_layer_name sample_gradcam)
    = OK (pre ++ [l], after) ∧
    layers (self_model sample_gradcam) = pre ++ l :: after ∧
    name l = self_target_layer_name sample_gradcam ∧
    (NoDup (name <$> layers (self_model sample_gradcam)) → qualifies 1 l = true).
Proof.
  apply (selected_layer_is_found sample_model 1 sample_store sample_gradcam
           sample_store_after).
  vm_compute. reflexivity.
Defined.

(** A picture of 2 by 2 under a heatmap of 1 by 2. *)
Lemma overlay_size_mismatch_refused_witness :
  overlay_heatmap sample_gradcam (NDArray [1; 2] [0; 255]%Z) sample_picture default_alpha
                  COLORMAP_VIRIDIS sample_store_after
  = Raise cv2_error.
Proof.
  apply (overlay_size_mismatch_refused sample_gradcam (NDArray [1; 2] [0; 255]%Z)
           sample_picture default_alpha COLORMAP_VIRIDIS sample_store_after 1 2 2 2).
  - reflexivity.
  - reflexivity.
  - discriminate.
Defined.


(** The classifier for images of any size: its convolution has an unknown
    height, and the two layers after it are passed over. *)
Lemma scan_stops_at_unknown_extent_witness :
  __init__ any_size_model None 1 any_size_store = Raise TypeError.
Proof.
  apply (scan_stops_at_unknown_extent any_size_model 1 any_size_store any_size_model
           any_size_store [input_layer] any_size_conv
           [global_pool_layer; any_size_scores]).
  - vm_compute. reflexivity.
  - reflexivity.
  - reflexivity.
  - repeat constructor.
Defined.

(** A layer 4 cells high and 1 cell wide is selected for a minimum of 3 as
    the layer 4 by 4 is. *)
Lemma selection_ignores_width_witness :
  find_target_layer [pool_layer; conv_layer] 3
  = find_target_layer [pool_layer; narrow_conv_layer] 3.
Proof.
  apply (selection_ignores_width [pool_layer; conv_layer] [pool_layer; narrow_conv_layer] 3).
  repeat constructor.
Defined.

(** On the sample classifier the scores sliced for class 1 are its logits. *)
Lemma heatmap_scores_are_logits_witness :
  getitem_col
    (run_layers sample_store_after [flatten_layer; new_final_layer]
       (run_layers sample_store_after [input_layer; conv_layer; pool_layer] sample_image))
    1
  = getitem_col (logits sample_store sample_model sample_image) 1.
Proof.
  apply (heatmap_scores_are_logits sample_model sample_store
           [input_layer; conv_layer; pool_layer] flatten_layer softmax_layer 3 4 [None]
           None 1 sample_gradcam sample_store_after).
  - reflexivity.
  - vm_compute. reflexivity.
  - compute_done.
  - vm_compute. reflexivity.
  - lia.
  - reflexivity.
  - discriminate.
  - compute_done.
  - compute_done.
  - vm_compute. reflexivity.
  - intros l v Hl Hv.
    repeat (apply elem_of_cons in Hl as [->|Hl]; [by apply elem_of_nil in Hv|]).
    by apply elem_of_nil in Hl.
  - vm_compute. reflexivity.
  - reflexivity.
Defined.
